(** * i2c-rpmsg-imx: the I2C-over-RPMSG bus driver

    A shallow embedding of [drivers/i2c/busses/i2c-rpmsg-imx.c]: the
    receive callback [i2c_rpmsg_cb], the exchange [rpmsg_xfer], the two
    per-message operations [i2c_rpmsg_read] and [i2c_rpmsg_write], and the
    transfer loop [i2c_rpbus_xfer].

    The driver keeps one global [struct i2c_rpmsg_info]; it is threaded
    explicitly through every function here, together with the list of
    frames handed to [rpmsg_send] and the caller's byte-addressed memory
    (the buffers that [struct i2c_msg] points into).  The remote processor
    is an environment: for each exchange it says what [rpmsg_send] returns
    and which packets reach the callback before the wait ends.  The mutex
    held around a transfer makes transfers run one after the other, which
    is how they are composed here. *)

From Stdlib Require Import ZArith List Bool Lia.
Import ListNotations.
Local Open Scope Z_scope.

(** ** Declarations taken from kernel headers *)

(** Modelled from the spec: the errno values ("invalid argument", "timeout",
    "protocol mismatch") and the read-direction flag of [struct i2c_msg] come
    from kernel headers outside this file's source, so they are parameters of
    the whole development.  All that is known of an errno value is that it
    is positive. *)
Class kernel_headers : Type := {
  EINVAL : Z;
  ETIMEDOUT : Z;
  EPROTO : Z;
  I2C_M_RD : Z;
  EINVAL_pos : 0 < EINVAL;
  ETIMEDOUT_pos : 0 < ETIMEDOUT;
  EPROTO_pos : 0 < EPROTO
}.

(** Modelled from the spec: [struct imx_rpmsg_head] is declared in
    [linux/imx_rpmsg.h]; its fields are the ones the driver assigns and the
    ten header bytes of the layout table at the top of the source
    (category, version, type, command, priority and four reserved bytes). *)
Record imx_rpmsg_head : Type := {
  hdr_cate : Z;
  hdr_major : Z;
  hdr_minor : Z;
  hdr_type : Z;
  hdr_cmd : Z;
  hdr_reserved : list Z
}.

(** Modelled from the spec: [struct i2c_msg] is declared in [linux/i2c.h]:
    a 16-bit address, 16-bit flags, a 16-bit length and a pointer to the
    caller's buffer. *)
Record i2c_msg : Type := {
  msg_addr : Z;
  msg_flags : Z;
  msg_len : Z;
  msg_buf : Z
}.

(** ** Constants of the driver *)

Definition I2C_RPMSG_MAX_BUF_SIZE : Z := 16.
Definition I2C_RPMSG_TIMEOUT : Z := 500.
Definition I2C_RPMSG_CATEGORY : Z := 0x09.
Definition I2C_RPMSG_VERSION : Z := 0x0001.
Definition I2C_RPMSG_TYPE_REQUEST : Z := 0x00.
Definition I2C_RPMSG_TYPE_RESPONSE : Z := 0x01.
Definition I2C_RPMSG_COMMAND_READ : Z := 0x00.
Definition I2C_RPMSG_COMMAND_WRITE : Z := 0x01.
Definition I2C_RPMSG_PRIORITY : Z := 0x01.
Definition I2C_RPMSG_M_STOP : Z := 0x0200.

(** Conversion to [u8] and [u16] on assignment. *)
Definition u8 (z : Z) : Z := z mod 2 ^ 8.
Definition u16 (z : Z) : Z := z mod 2 ^ 16.

(** ** Data *)

Record i2c_rpmsg_msg : Type := {
  rmsg_header : imx_rpmsg_head;
  rmsg_bus_id : Z;
  rmsg_ret_val : Z;
  rmsg_addr : Z;
  rmsg_flags : Z;
  rmsg_len : Z;
  rmsg_buf : list Z
}.

(** [sizeof(struct i2c_rpmsg_msg)]: the struct is packed, the header takes
    ten bytes. *)
Definition sizeof_i2c_rpmsg_msg : Z :=
  10 + 1 + 1 + 2 + 2 + 2 + I2C_RPMSG_MAX_BUF_SIZE.

(** A buffer travelling over the channel: the memory at [data] seen through
    the struct, and the byte count that comes with it. *)
Record packet : Type := {
  pkt_data : i2c_rpmsg_msg;
  pkt_len : Z
}.

(** The global [i2c_rpmsg].  [rpdev] is [false] for a NULL channel, [msg] is
    the pointer to the last accepted response, [cmd_complete] is the
    completion's counter. *)
Record i2c_rpmsg_info : Type := {
  rpdev : bool;
  msg : option i2c_rpmsg_msg;
  cmd_complete : nat;
  info_bus_id : Z;
  info_addr : Z
}.

Definition memory : Type := Z -> Z.

Record world : Type := {
  i2c_rpmsg : i2c_rpmsg_info;
  wire : list packet;
  ram : memory
}.

(** What the remote side does during one exchange: the value [rpmsg_send]
    returns, and the packets delivered to the callback, in order, between
    [reinit_completion] and the end of the wait of [I2C_RPMSG_TIMEOUT] ms. *)
Record exchange : Type := {
  send_ret : Z;
  inbox : list packet
}.

(** A C function either returns an [int] or dereferences a NULL pointer. *)
Inductive outcome : Type :=
| Ret (z : Z)
| Oops.

(** ** Field updates *)

Definition set_msg (i : i2c_rpmsg_info) (m : option i2c_rpmsg_msg) : i2c_rpmsg_info :=
  {| rpdev := rpdev i; msg := m; cmd_complete := cmd_complete i;
     info_bus_id := info_bus_id i; info_addr := info_addr i |}.

Definition set_cmd_complete (i : i2c_rpmsg_info) (n : nat) : i2c_rpmsg_info :=
  {| rpdev := rpdev i; msg := msg i; cmd_complete := n;
     info_bus_id := info_bus_id i; info_addr := info_addr i |}.

Definition set_expected (i : i2c_rpmsg_info) (bus a : Z) : i2c_rpmsg_info :=
  {| rpdev := rpdev i; msg := msg i; cmd_complete := cmd_complete i;
     info_bus_id := bus; info_addr := a |}.

Definition set_info (w : world) (i : i2c_rpmsg_info) : world :=
  {| i2c_rpmsg := i; wire := wire w; ram := ram w |}.

Definition set_ram (w : world) (m : memory) : world :=
  {| i2c_rpmsg := i2c_rpmsg w; wire := wire w; ram := m |}.

Definition set_msg_len (m : i2c_msg) (l : Z) : i2c_msg :=
  {| msg_addr := msg_addr m; msg_flags := msg_flags m; msg_len := l;
     msg_buf := msg_buf m |}.

(** ** Kernel primitives *)

(** Modelled from the spec: the completion is a counter; [complete] adds
    one, [reinit_completion] clears it. *)
Definition complete (i : i2c_rpmsg_info) : i2c_rpmsg_info :=
  set_cmd_complete i (S (cmd_complete i)).

Definition reinit_completion (w : world) : world :=
  set_info w (set_cmd_complete (i2c_rpmsg w) 0%nat).

(** Modelled from the spec: the send primitive takes the frame and its size
    and accepts or rejects it; the frame is appended to [wire]. *)
Definition rpmsg_send (data : i2c_rpmsg_msg) (len : Z) (e : exchange)
  (w : world) : world * Z :=
  ({| i2c_rpmsg := i2c_rpmsg w;
      wire := wire w ++ [ {| pkt_data := data; pkt_len := len |} ];
      ram := ram w |}, send_ret e).

(** [memcpy dst src n] into the caller's memory. *)
Definition memcpy (m : memory) (dst : Z) (src : list Z) (n : Z) : memory :=
  fun a => if (dst <=? a) && (a <? dst + n)
           then nth (Z.to_nat (a - dst)) src 0
           else m a.

Section Driver.

Context {K : kernel_headers}.

(** ** [i2c_rpmsg_cb] *)

Definition i2c_rpmsg_cb (i : i2c_rpmsg_info) (data : i2c_rpmsg_msg) (len : Z)
  : i2c_rpmsg_info * Z :=
  if negb (hdr_type (rmsg_header data) =? I2C_RPMSG_TYPE_RESPONSE) then
    (i, - EINVAL)
  else if negb (rmsg_bus_id data =? info_bus_id i)
          || negb (rmsg_addr data =? info_addr i) then
    (i, - EINVAL)
  else if rmsg_len data >? I2C_RPMSG_MAX_BUF_SIZE then
    (i, - EINVAL)
  else
    (complete (set_msg i (Some data)), 0).

(** Modelled from the spec: the bounded wait.  A completion that has fired
    is consumed and the wait returns the time left, which is not zero; as
    long as it has not fired the packets of the exchange's inbox reach the
    callback one by one; with the inbox used up the wait times out and
    returns zero. *)
Fixpoint wait_for_completion_timeout (i : i2c_rpmsg_info) (arriving : list packet)
  : i2c_rpmsg_info * Z :=
  match cmd_complete i with
  | S n => (set_cmd_complete i n, 1)
  | O =>
      match arriving with
      | [] => (i, 0)
      | p :: later =>
          wait_for_completion_timeout
            (fst (i2c_rpmsg_cb i (pkt_data p) (pkt_len p))) later
      end
  end.

(** ** [rpmsg_xfer] *)

Definition rpmsg_xfer (rmsg : i2c_rpmsg_msg) (e : exchange) (w : world)
  : world * outcome :=
  let (w1, ret) := rpmsg_send rmsg sizeof_i2c_rpmsg_msg e w in
  if ret <? 0 then (w1, Ret ret)
  else
    let (i2, ret) := wait_for_completion_timeout (i2c_rpmsg w1) (inbox e) in
    let w2 := set_info w1 i2 in
    if ret =? 0 then (w2, Ret (- ETIMEDOUT))
    else
      match msg i2 with
      | None => (w2, Oops)
      | Some m =>
          if negb (rmsg_ret_val m =? 0) then (w2, Ret (- rmsg_ret_val m))
          else (w2, Ret 0)
      end.

(** ** [i2c_rpmsg_read] *)

Definition i2c_rpmsg_read (pmsg : i2c_msg) (bus_id : Z) (is_last : bool)
  (e : exchange) (w : world) : world * outcome :=
  if negb (rpdev (i2c_rpmsg w)) then (w, Ret (- EINVAL))
  else if msg_len pmsg >? I2C_RPMSG_MAX_BUF_SIZE then (w, Ret (- EINVAL))
  else
    let rmsg :=
      {| rmsg_header :=
           {| hdr_cate := I2C_RPMSG_CATEGORY;
              hdr_major := u8 I2C_RPMSG_VERSION;
              hdr_minor := u8 (Z.shiftr I2C_RPMSG_VERSION 8);
              hdr_type := I2C_RPMSG_TYPE_REQUEST;
              hdr_cmd := I2C_RPMSG_COMMAND_READ;
              hdr_reserved := [I2C_RPMSG_PRIORITY; 0; 0; 0; 0] |};
         rmsg_bus_id := u8 bus_id;
         rmsg_ret_val := 0;
         rmsg_addr := msg_addr pmsg;
         rmsg_flags :=
           if is_last then u16 (Z.lor (msg_flags pmsg) I2C_RPMSG_M_STOP)
           else msg_flags pmsg;
         rmsg_len := msg_len pmsg;
         rmsg_buf := repeat 0 16 |} in
    let w1 := reinit_completion w in
    let (w2, r) := rpmsg_xfer rmsg e w1 in
    match r with
    | Oops => (w2, Oops)
    | Ret ret =>
        if negb (ret =? 0) then (w2, Ret ret)
        else
          match msg (i2c_rpmsg w2) with
          | None => (w2, Ret (- EPROTO))
          | Some resp =>
              if negb (rmsg_len resp =? msg_len pmsg) then (w2, Ret (- EPROTO))
              else
                (set_ram w2 (memcpy (ram w2) (msg_buf pmsg) (rmsg_buf resp)
                               (rmsg_len resp)),
                 Ret (msg_len pmsg))
          end
    end.

(** ** [i2c_rpmsg_write] *)

(** The copy loop [for (i = 0; i < rmsg.len; i++) rmsg.buf[i] = msg->buf[i]]
    over a zeroed sixteen-byte array. *)
Definition copy_payload (m : memory) (src : Z) (len : Z) : list Z :=
  map (fun k => if Z.of_nat k <? len then m (src + Z.of_nat k) else 0)
      (seq 0 16).

Definition i2c_rpmsg_write (pmsg : i2c_msg) (bus_id : Z) (is_last : bool)
  (e : exchange) (w : world) : world * outcome :=
  if negb (rpdev (i2c_rpmsg w)) then (w, Ret (- EINVAL))
  else if msg_len pmsg >? I2C_RPMSG_MAX_BUF_SIZE then (w, Ret (- EINVAL))
  else
    let rmsg :=
      {| rmsg_header :=
           {| hdr_cate := I2C_RPMSG_CATEGORY;
              hdr_major := u8 I2C_RPMSG_VERSION;
              hdr_minor := u8 (Z.shiftr I2C_RPMSG_VERSION 8);
              hdr_type := I2C_RPMSG_TYPE_REQUEST;
              hdr_cmd := I2C_RPMSG_COMMAND_WRITE;
              hdr_reserved := [I2C_RPMSG_PRIORITY; 0; 0; 0; 0] |};
         rmsg_bus_id := u8 bus_id;
         rmsg_ret_val := 0;
         rmsg_addr := msg_addr pmsg;
         rmsg_flags :=
           if is_last then u16 (Z.lor (msg_flags pmsg) I2C_RPMSG_M_STOP)
           else msg_flags pmsg;
         rmsg_len := msg_len pmsg;
         rmsg_buf := copy_payload (ram w) (msg_buf pmsg) (msg_len pmsg) |} in
    let w1 := reinit_completion w in
    let (w2, r) := rpmsg_xfer rmsg e w1 in
    match r with
    | Oops => (w2, Oops)
    | Ret ret => if negb (ret =? 0) then (w2, Ret ret) else (w2, Ret ret)
    end.

(** ** [i2c_rpbus_xfer] *)

(** The [for] loop, entered at index [i] with the messages from [i] on.
    [nr] is [rdata->adapter.nr]; [env i] is what the remote side does during
    the exchange of message [i].  The result carries the message array as
    the loop leaves it. *)
Fixpoint xfer_loop (nr num : Z) (env : nat -> exchange) (i : nat)
  (is_last : bool) (msgs : list i2c_msg) (w : world)
  : world * list i2c_msg * outcome :=
  match msgs with
  | [] => (w, [], Ret num)
  | pmsg :: rest =>
      let is_last := if Z.of_nat i =? num - 1 then true else is_last in
      let w0 := set_info w (set_expected (i2c_rpmsg w) (u8 nr) (msg_addr pmsg)) in
      if negb (Z.land (msg_flags pmsg) I2C_M_RD =? 0) then
        let (w1, r) := i2c_rpmsg_read pmsg nr is_last (env i) w0 in
        match r with
        | Oops => (w1, pmsg :: rest, Oops)
        | Ret ret =>
            if ret <? 0 then (w1, pmsg :: rest, Ret ret)
            else
              let '(w2, rest', r') :=
                xfer_loop nr num env (S i) is_last rest w1 in
              (w2, set_msg_len pmsg (u16 ret) :: rest', r')
        end
      else
        let (w1, r) := i2c_rpmsg_write pmsg nr is_last (env i) w0 in
        match r with
        | Oops => (w1, pmsg :: rest, Oops)
        | Ret ret =>
            if ret <? 0 then (w1, pmsg :: rest, Ret ret)
            else
              let '(w2, rest', r') :=
                xfer_loop nr num env (S i) is_last rest w1 in
              (w2, pmsg :: rest', r')
        end
  end.

Definition i2c_rpbus_xfer (nr : Z) (msgs : list i2c_msg) (env : nat -> exchange)
  (w : world) : world * list i2c_msg * outcome :=
  xfer_loop nr (Z.of_nat (length msgs)) env 0 false msgs w.

End Driver.

(** ** Binding and unbinding the channel *)

Definition set_rpdev (i : i2c_rpmsg_info) (d : bool) : i2c_rpmsg_info :=
  {| rpdev := d; msg := msg i; cmd_complete := cmd_complete i;
     info_bus_id := info_bus_id i; info_addr := info_addr i |}.

(** Modelled from the spec: [init_completion] leaves the completion not
    signalled. *)
Definition init_completion (i : i2c_rpmsg_info) : i2c_rpmsg_info :=
  set_cmd_complete i 0%nat.

(** [static struct i2c_rpmsg_info i2c_rpmsg]: zero-initialised. *)
Definition i2c_rpmsg_static : i2c_rpmsg_info :=
  {| rpdev := false; msg := None; cmd_complete := 0%nat;
     info_bus_id := 0; info_addr := 0 |}.

Section Lifecycle.

Context {K : kernel_headers}.

(** [i2c_rpmsg_probe]; the argument says whether [rpdev] is a device or
    NULL.  The mutex it initialises is not part of the state. *)
Definition i2c_rpmsg_probe (dev : bool) (i : i2c_rpmsg_info)
  : i2c_rpmsg_info * Z :=
  let ret := 0 in
  if negb dev then (i, - EINVAL)
  else (init_completion (set_rpdev i dev), ret).

(** [i2c_rpmsg_remove]. *)
Definition i2c_rpmsg_remove (i : i2c_rpmsg_info) : i2c_rpmsg_info :=
  set_rpdev i false.

End Lifecycle.

(** ** The advertised limits *)

(** Modelled from the spec: [struct i2c_adapter_quirks] is declared in
    [linux/i2c.h]; these are the two fields the driver sets. *)
Record i2c_adapter_quirks : Type := {
  max_write_len : Z;
  max_read_len : Z
}.

Definition i2c_rpbus_quirks : i2c_adapter_quirks :=
  {| max_write_len := I2C_RPMSG_MAX_BUF_SIZE;
     max_read_len := I2C_RPMSG_MAX_BUF_SIZE |}.

(** ** Predicates used in the statements *)

(** The three tests of the receive callback, against the bus id and the
    address the driver currently expects. *)
Definition accepts (bus a : Z) (p : packet) : bool :=
  (hdr_type (rmsg_header (pkt_data p)) =? I2C_RPMSG_TYPE_RESPONSE)
  && ((rmsg_bus_id (pkt_data p) =? bus) && (rmsg_addr (pkt_data p) =? a))
  && (rmsg_len (pkt_data p) <=? I2C_RPMSG_MAX_BUF_SIZE).

(** The first packet of an inbox that passes the three tests. *)
Definition first_accepted (bus a : Z) (arriving : list packet) : option packet :=
  find (accepts bus a) arriving.

(** The frame is stored and the completion signalled. *)
Definition stored_and_signalled (i i' : i2c_rpmsg_info) (data : i2c_rpmsg_msg) : Prop :=
  msg i' = Some data /\ cmd_complete i' = S (cmd_complete i).

Definition is_u16 (z : Z) : Prop := 0 <= z < 2 ^ 16.

(** The world once [rmsg] has been handed to [rpmsg_send]. *)
Definition handed (w : world) (rmsg : i2c_rpmsg_msg) : world :=
  {| i2c_rpmsg := i2c_rpmsg w;
     wire := wire w ++ [ {| pkt_data := rmsg; pkt_len := sizeof_i2c_rpmsg_msg |} ];
     ram := ram w |}.

Section Vocabulary.

Context {K : kernel_headers}.

(** The direction test of the loop, [pmsg->flags & I2C_M_RD]. *)
Definition is_read (m : i2c_msg) : bool :=
  negb (Z.land (msg_flags m) I2C_M_RD =? 0).

(** The state in which message [m] is handed to its read or write: the
    expected bus id and address have just been assigned. *)
Definition expecting (w : world) (nr : Z) (m : i2c_msg) : world :=
  set_info w (set_expected (i2c_rpmsg w) (u8 nr) (msg_addr m)).

(** The per-message call of the loop body. *)
Definition message_call (m : i2c_msg) (nr : Z) (is_last : bool) (e : exchange)
  (w : world) : world * outcome :=
  if is_read m then i2c_rpmsg_read m nr is_last e w
  else i2c_rpmsg_write m nr is_last e w.

(** The exchange of message [m] goes through: the send is accepted, the
    first packet the callback accepts carries return code zero and, for a
    read, the requested length. *)
Definition exchange_succeeds (nr : Z) (m : i2c_msg) (e : exchange) : Prop :=
  0 <= msg_len m <= I2C_RPMSG_MAX_BUF_SIZE /\
  0 <= send_ret e /\
  exists p, first_accepted (u8 nr) (msg_addr m) (inbox e) = Some p /\
            rmsg_ret_val (pkt_data p) = 0 /\
            (is_read m = true -> rmsg_len (pkt_data p) = msg_len m).

(** The request frame both operations build, up to command and payload. *)
Definition request (cmd : Z) (m : i2c_msg) (bus_id : Z) (is_last : bool)
  (payload : list Z) : i2c_rpmsg_msg :=
  {| rmsg_header :=
       {| hdr_cate := I2C_RPMSG_CATEGORY;
          hdr_major := u8 I2C_RPMSG_VERSION;
          hdr_minor := u8 (Z.shiftr I2C_RPMSG_VERSION 8);
          hdr_type := I2C_RPMSG_TYPE_REQUEST;
          hdr_cmd := cmd;
          hdr_reserved := [I2C_RPMSG_PRIORITY; 0; 0; 0; 0] |};
     rmsg_bus_id := u8 bus_id;
     rmsg_ret_val := 0;
     rmsg_addr := msg_addr m;
     rmsg_flags :=
       if is_last then u16 (Z.lor (msg_flags m) I2C_RPMSG_M_STOP)
       else msg_flags m;
     rmsg_len := msg_len m;
     rmsg_buf := payload |}.

(** Neither operation gets as far as building a frame. *)
Definition refused (m : i2c_msg) (w : world) : bool :=
  negb (rpdev (i2c_rpmsg w)) || (msg_len m >? I2C_RPMSG_MAX_BUF_SIZE).

(** The world after an accepted response [p] to the request [rq]. *)
Definition answered (w : world) (rq : i2c_rpmsg_msg) (p : packet) : world :=
  set_info (handed (reinit_completion w) rq)
    (set_msg (i2c_rpmsg (reinit_completion w)) (Some (pkt_data p))).

(** The packet a call puts on the wire for message [m]. *)
Definition frame_of (nr : Z) (m : i2c_msg) (il : bool) (p : packet) : Prop :=
  exists payload,
    p = {| pkt_data :=
             request (if is_read m then I2C_RPMSG_COMMAND_READ
                      else I2C_RPMSG_COMMAND_WRITE) m nr il payload;
           pkt_len := sizeof_i2c_rpmsg_msg |}.

(** The same message up to its recorded length. *)
Definition same_target (m m' : i2c_msg) : Prop :=
  msg_addr m' = msg_addr m /\ msg_flags m' = msg_flags m /\
  msg_buf m' = msg_buf m.

End Vocabulary.

(** ** Further predicates *)

(** The return code of a packet is a byte. *)
Definition ret_val_is_u8 (p : packet) : Prop :=
  0 <= rmsg_ret_val (pkt_data p) < 2 ^ 8.

(** The response a remote side makes of a request by keeping its bus id,
    address and length and filling in return code and data. *)
Definition as_response (p : packet) (rv : Z) (data : list Z) : packet :=
  {| pkt_data :=
       {| rmsg_header :=
            {| hdr_cate := hdr_cate (rmsg_header (pkt_data p));
               hdr_major := hdr_major (rmsg_header (pkt_data p));
               hdr_minor := hdr_minor (rmsg_header (pkt_data p));
               hdr_type := I2C_RPMSG_TYPE_RESPONSE;
               hdr_cmd := hdr_cmd (rmsg_header (pkt_data p));
               hdr_reserved := hdr_reserved (rmsg_header (pkt_data p)) |};
          rmsg_bus_id := rmsg_bus_id (pkt_data p);
          rmsg_ret_val := rv;
          rmsg_addr := rmsg_addr (pkt_data p);
          rmsg_flags := rmsg_flags (pkt_data p);
          rmsg_len := rmsg_len (pkt_data p);
          rmsg_buf := data |};
     pkt_len := pkt_len p |}.

(** What every request on the wire looks like. *)
Definition request_shape (nr : Z) (p : packet) : Prop :=
  pkt_len p = 34 /\
  hdr_cate (rmsg_header (pkt_data p)) = 9 /\
  hdr_major (rmsg_header (pkt_data p)) = 1 /\
  hdr_minor (rmsg_header (pkt_data p)) = 0 /\
  hdr_type (rmsg_header (pkt_data p)) = 0 /\
  (hdr_cmd (rmsg_header (pkt_data p)) = 0 \/
   hdr_cmd (rmsg_header (pkt_data p)) = 1) /\
  hdr_reserved (rmsg_header (pkt_data p)) = [1; 0; 0; 0; 0] /\
  rmsg_bus_id (pkt_data p) = nr mod 256 /\
  rmsg_ret_val (pkt_data p) = 0 /\
  rmsg_len (pkt_data p) <= 16 /\
  length (rmsg_buf (pkt_data p)) = 16%nat.

(** A signalled completion has a stored response behind it. *)
Definition completion_backed (i : i2c_rpmsg_info) : Prop :=
  cmd_complete i <> O -> msg i <> None.

Section Deliveries.

Context {K : kernel_headers}.

(** Packets reaching the callback one after the other. *)
Definition deliver (i : i2c_rpmsg_info) (arriving : list packet) : i2c_rpmsg_info :=
  fold_left (fun j p => fst (i2c_rpmsg_cb j (pkt_data p) (pkt_len p))) arriving i.

End Deliveries.

(** ** A concrete configuration *)

(** The values Linux gives the four header constants. *)
Definition linux : kernel_headers :=
  {| EINVAL := 22; ETIMEDOUT := 110; EPROTO := 71; I2C_M_RD := 0x0001;
     EINVAL_pos := eq_refl; ETIMEDOUT_pos := eq_refl; EPROTO_pos := eq_refl |}.

(** The driver after [i2c_rpmsg_probe], nothing sent yet; the caller keeps
    the byte 0xAA at address 100. *)
Definition idle : i2c_rpmsg_info :=
  {| rpdev := true; msg := None; cmd_complete := 0%nat;
     info_bus_id := 0; info_addr := 0 |}.

Definition boot : world :=
  {| i2c_rpmsg := idle; wire := [];
     ram := fun a => if a =? 100 then 0xAA else 0 |}.

(** A response frame as the remote side sends it. *)
Definition reply (cmd bus a rv len : Z) (data : list Z) : packet :=
  {| pkt_data :=
       {| rmsg_header :=
            {| hdr_cate := I2C_RPMSG_CATEGORY; hdr_major := 1; hdr_minor := 0;
               hdr_type := I2C_RPMSG_TYPE_RESPONSE; hdr_cmd := cmd;
               hdr_reserved := [I2C_RPMSG_PRIORITY; 0; 0; 0; 0] |};
          rmsg_bus_id := bus; rmsg_ret_val := rv; rmsg_addr := a;
          rmsg_flags := 0; rmsg_len := len;
          rmsg_buf := data ++ repeat 0 (16 - length data) |};
     pkt_len := sizeof_i2c_rpmsg_msg |}.

(** Messages for the device at address 0x50. *)
Definition write_0x50 : i2c_msg :=
  {| msg_addr := 0x50; msg_flags := 0; msg_len := 1; msg_buf := 100 |}.

Definition read_0x50 : i2c_msg :=
  {| msg_addr := 0x50; msg_flags := 0x0001; msg_len := 2; msg_buf := 200 |}.

Definition read1_0x50 : i2c_msg :=
  {| msg_addr := 0x50; msg_flags := 0x0001; msg_len := 1; msg_buf := 200 |}.

Definition oversized_0x50 : i2c_msg :=
  {| msg_addr := 0x50; msg_flags := 0; msg_len := 17; msg_buf := 100 |}.

Definition write_ok : exchange :=
  {| send_ret := 0;
     inbox := [reply I2C_RPMSG_COMMAND_WRITE 1 0x50 0 1 [0xAA]] |}.

Definition read_ok : exchange :=
  {| send_ret := 0;
     inbox := [reply I2C_RPMSG_COMMAND_READ 1 0x50 0 2 [0x12; 0x34]] |}.

Definition read_short : exchange :=
  {| send_ret := 0;
     inbox := [reply I2C_RPMSG_COMMAND_READ 1 0x50 0 1 [0x12]] |}.

Definition peer_not_ready : exchange :=
  {| send_ret := 0;
     inbox := [reply I2C_RPMSG_COMMAND_READ 1 0x50 10 0 []] |}.

Definition silence : exchange := {| send_ret := 0; inbox := [] |}.

(** A remote side that answers a write and then a read. *)
Definition peer_answers (j : nat) : exchange :=
  match j with
  | O => write_ok
  | _ => read_ok
  end.

(** A remote side that answers the first message and reports "peer not
    ready" for the second. *)
Definition peer_fails_second (j : nat) : exchange :=
  match j with
  | O => write_ok
  | _ => peer_not_ready
  end.

(** A remote side whose second send is rejected, and one that answers the
    read with the byte the write carried. *)
Definition send_rejected : exchange := {| send_ret := -12; inbox := [] |}.

Definition peer_rejects_second (j : nat) : exchange :=
  match j with
  | O => write_ok
  | _ => send_rejected
  end.

Definition read_echo : exchange :=
  {| send_ret := 0;
     inbox := [reply I2C_RPMSG_COMMAND_READ 1 0x50 0 1 [0xAA]] |}.

Definition peer_echoes (j : nat) : exchange :=
  match j with
  | O => write_ok
  | _ => read_echo
  end.

(** Three messages for three addresses, the second answered with "peer not
    ready". *)
Definition read_0x51 : i2c_msg :=
  {| msg_addr := 0x51; msg_flags := 0x0001; msg_len := 2; msg_buf := 200 |}.

Definition write_0x52 : i2c_msg :=
  {| msg_addr := 0x52; msg_flags := 0; msg_len := 1; msg_buf := 100 |}.

Definition peer_fails_0x51 (j : nat) : exchange :=
  match j with
  | O => write_ok
  | _ => {| send_ret := 0;
            inbox := [reply I2C_RPMSG_COMMAND_READ 1 0x51 10 0 []] |}
  end.

(** * Properties *)

Section Properties.

Context {K : kernel_headers}.

(** ** The receive callback *)

Lemma i2c_rpmsg_cb_accepts (i : i2c_rpmsg_info) (p : packet) :
  accepts (info_bus_id i) (info_addr i) p = true ->
  i2c_rpmsg_cb i (pkt_data p) (pkt_len p)
  = (complete (set_msg i (Some (pkt_data p))), 0).
Proof.
  unfold accepts, i2c_rpmsg_cb. intros H.
  apply andb_prop in H as [H Hlen]. apply andb_prop in H as [Hty Hid].
  apply andb_prop in Hid as [Hbus Haddr].
  rewrite Hty, Hbus, Haddr. simpl.
  replace (rmsg_len (pkt_data p) >? I2C_RPMSG_MAX_BUF_SIZE) with false;
    [reflexivity|].
  symmetry. rewrite Z.gtb_ltb. apply Z.ltb_ge. now apply Z.leb_le.
Qed.

Lemma i2c_rpmsg_cb_rejects (i : i2c_rpmsg_info) (p : packet) :
  accepts (info_bus_id i) (info_addr i) p = false ->
  i2c_rpmsg_cb i (pkt_data p) (pkt_len p) = (i, - EINVAL).
Proof.
  unfold accepts, i2c_rpmsg_cb. intros H.
  destruct (hdr_type (rmsg_header (pkt_data p)) =? I2C_RPMSG_TYPE_RESPONSE);
    [|reflexivity].
  destruct (rmsg_bus_id (pkt_data p) =? info_bus_id i); [|reflexivity].
  destruct (rmsg_addr (pkt_data p) =? info_addr i); [|reflexivity].
  simpl in *. rewrite Z.gtb_ltb. rewrite Z.leb_antisym in H.
  apply negb_false_iff in H. now rewrite H.
Qed.

(** ** The wait and the exchange *)

Lemma wait_after_reinit (arriving : list packet) :
  forall i : i2c_rpmsg_info,
    cmd_complete i = O ->
    wait_for_completion_timeout i arriving
    = match first_accepted (info_bus_id i) (info_addr i) arriving with
      | Some p => (set_msg i (Some (pkt_data p)), 1)
      | None => (i, 0)
      end.
Proof.
  induction arriving as [|p later IH]; intros i Hi; simpl; rewrite Hi.
  - reflexivity.
  - destruct (accepts (info_bus_id i) (info_addr i) p) eqn:Hp.
    + rewrite (i2c_rpmsg_cb_accepts _ _ Hp). simpl fst.
      destruct later; simpl; destruct i; simpl in *; subst; reflexivity.
    + rewrite (i2c_rpmsg_cb_rejects _ _ Hp). simpl fst. now apply IH.
Qed.

Lemma rpmsg_xfer_after_reinit (rmsg : i2c_rpmsg_msg) (e : exchange) (w : world) :
  cmd_complete (i2c_rpmsg w) = O ->
  rpmsg_xfer rmsg e w
  = if send_ret e <? 0 then (handed w rmsg, Ret (send_ret e))
    else
      match first_accepted (info_bus_id (i2c_rpmsg w)) (info_addr (i2c_rpmsg w))
              (inbox e) with
      | None => (handed w rmsg, Ret (- ETIMEDOUT))
      | Some p =>
          (set_info (handed w rmsg) (set_msg (i2c_rpmsg w) (Some (pkt_data p))),
           Ret (if negb (rmsg_ret_val (pkt_data p) =? 0)
                then - rmsg_ret_val (pkt_data p) else 0))
      end.
Proof.
  intros Hw. unfold rpmsg_xfer, rpmsg_send, handed. simpl.
  destruct (send_ret e <? 0); [reflexivity|].
  rewrite (wait_after_reinit _ _ Hw).
  destruct (first_accepted _ _ _) as [p|]; simpl; [|reflexivity].
  now destruct (rmsg_ret_val (pkt_data p) =? 0).
Qed.

(** ** The two per-message operations *)

Lemma i2c_rpmsg_write_eq (m : i2c_msg) (nr : Z) (il : bool) (e : exchange)
  (w : world) :
  i2c_rpmsg_write m nr il e w
  = if refused m w then (w, Ret (- EINVAL))
    else
      let rq := request I2C_RPMSG_COMMAND_WRITE m nr il
                  (copy_payload (ram w) (msg_buf m) (msg_len m)) in
      if send_ret e <? 0 then (handed (reinit_completion w) rq, Ret (send_ret e))
      else
        match first_accepted (info_bus_id (i2c_rpmsg w)) (info_addr (i2c_rpmsg w))
                (inbox e) with
        | None => (handed (reinit_completion w) rq, Ret (- ETIMEDOUT))
        | Some p =>
            (answered w rq p,
             Ret (if negb (rmsg_ret_val (pkt_data p) =? 0)
                  then - rmsg_ret_val (pkt_data p) else 0))
        end.
Proof.
  unfold i2c_rpmsg_write, refused.
  destruct (rpdev (i2c_rpmsg w)); simpl; [|reflexivity].
  destruct (msg_len m >? I2C_RPMSG_MAX_BUF_SIZE); [reflexivity|].
  rewrite rpmsg_xfer_after_reinit by reflexivity.
  fold (request I2C_RPMSG_COMMAND_WRITE m nr il
          (copy_payload (ram w) (msg_buf m) (msg_len m))).
  destruct (send_ret e <? 0) eqn:Hs.
  - now destruct (send_ret e =? 0).
  - simpl. destruct (first_accepted _ _ _) as [p|].
    + unfold answered.
      destruct (rmsg_ret_val (pkt_data p) =? 0); simpl;
        [reflexivity | now destruct (- rmsg_ret_val (pkt_data p) =? 0)].
    + now destruct (- ETIMEDOUT =? 0).
Qed.

Lemma i2c_rpmsg_read_eq (m : i2c_msg) (nr : Z) (il : bool) (e : exchange)
  (w : world) :
  i2c_rpmsg_read m nr il e w
  = if refused m w then (w, Ret (- EINVAL))
    else
      let rq := request I2C_RPMSG_COMMAND_READ m nr il (repeat 0 16) in
      if send_ret e <? 0 then (handed (reinit_completion w) rq, Ret (send_ret e))
      else
        match first_accepted (info_bus_id (i2c_rpmsg w)) (info_addr (i2c_rpmsg w))
                (inbox e) with
        | None => (handed (reinit_completion w) rq, Ret (- ETIMEDOUT))
        | Some p =>
            if negb (rmsg_ret_val (pkt_data p) =? 0) then
              (answered w rq p, Ret (- rmsg_ret_val (pkt_data p)))
            else if negb (rmsg_len (pkt_data p) =? msg_len m) then
              (answered w rq p, Ret (- EPROTO))
            else
              (set_ram (answered w rq p)
                 (memcpy (ram w) (msg_buf m) (rmsg_buf (pkt_data p))
                    (rmsg_len (pkt_data p))),
               Ret (msg_len m))
        end.
Proof.
  unfold i2c_rpmsg_read, refused.
  destruct (rpdev (i2c_rpmsg w)); simpl; [|reflexivity].
  destruct (msg_len m >? I2C_RPMSG_MAX_BUF_SIZE); [reflexivity|].
  rewrite rpmsg_xfer_after_reinit by reflexivity.
  fold (request I2C_RPMSG_COMMAND_READ m nr il (repeat 0 16)).
  destruct (send_ret e <? 0) eqn:Hs.
  - apply Z.ltb_lt in Hs.
    replace (send_ret e =? 0) with false by (symmetry; apply Z.eqb_neq; lia).
    reflexivity.
  - simpl. destruct (first_accepted _ _ _) as [p|].
    + unfold answered.
      destruct (rmsg_ret_val (pkt_data p) =? 0) eqn:Hr; simpl.
      * reflexivity.
      * apply Z.eqb_neq in Hr.
        replace (- rmsg_ret_val (pkt_data p) =? 0) with false
          by (symmetry; apply Z.eqb_neq; lia).
        reflexivity.
    + pose proof ETIMEDOUT_pos.
      replace (- ETIMEDOUT =? 0) with false by (symmetry; apply Z.eqb_neq; lia).
      reflexivity.
Qed.

(** ** The loop body *)

(** One iteration of the loop, through [message_call]. *)
Lemma xfer_loop_cons (nr num : Z) (env : nat -> exchange) (i : nat) (il : bool)
  (m : i2c_msg) (rest : list i2c_msg) (w : world) :
  xfer_loop nr num env i il (m :: rest) w
  = let il' := if Z.of_nat i =? num - 1 then true else il in
    let (w1, r) := message_call m nr il' (env i) (expecting w nr m) in
    match r with
    | Oops => (w1, m :: rest, Oops)
    | Ret ret =>
        if ret <? 0 then (w1, m :: rest, Ret ret)
        else
          let '(w2, rest', r') := xfer_loop nr num env (S i) il' rest w1 in
          ((w2, (if is_read m then set_msg_len m (u16 ret) else m) :: rest'), r')
    end.
Proof.
  cbn [xfer_loop]. unfold message_call, is_read, expecting.
  destruct (negb (Z.land (msg_flags m) I2C_M_RD =? 0)); reflexivity.
Qed.

Ltac split_call :=
  unfold message_call;
  rewrite ?i2c_rpmsg_read_eq, ?i2c_rpmsg_write_eq; cbv zeta;
  repeat match goal with
    | |- context [if ?c then _ else _] => destruct c eqn:?
    | |- context [match first_accepted ?a ?b ?c with _ => _ end] =>
        destruct (first_accepted a b c) eqn:?
    end.

(** A call never faults; it puts nothing on the wire and fails, or puts
    exactly the frame of its message on the wire. *)
Lemma message_call_wire (m : i2c_msg) (nr : Z) (il : bool) (e : exchange)
  (w w' : world) (r : outcome) :
  message_call m nr il e w = (w', r) ->
  exists z, r = Ret z /\
    ((w' = w /\ z = - EINVAL) \/
     (exists p, wire w' = wire w ++ [p] /\ frame_of nr m il p)).
Proof.
  pose proof EINVAL_pos.
  unfold frame_of. revert w' r. split_call; intros w' r [= <- <-];
    eexists; (split; [reflexivity|]);
    solve [ left; split; [reflexivity | lia]
          | right; eexists; split; [reflexivity | eexists; reflexivity] ].
Qed.

(** ** Frames on the wire *)

Lemma lor_stop_u16 (f : Z) :
  is_u16 f -> u16 (Z.lor f I2C_RPMSG_M_STOP) = Z.lor f I2C_RPMSG_M_STOP.
Proof.
  unfold is_u16, u16, I2C_RPMSG_M_STOP. intros Hf.
  assert (Hnn : 0 <= Z.lor f 512) by (apply Z.lor_nonneg; lia).
  apply Z.mod_small. split; [exact Hnn|].
  assert (Hlog : Z.log2 f < 16).
  { destruct (Z.eq_dec f 0) as [->|Hne]; [reflexivity|].
    apply Z.log2_lt_pow2; lia. }
  destruct (Z.eq_dec (Z.lor f 512) 0) as [->|Hne]; [reflexivity|].
  apply Z.log2_lt_pow2; [lia|].
  rewrite Z.log2_lor by lia. apply Z.max_lub_lt; [exact Hlog | reflexivity].
Qed.

(** The frames of one run of the loop: frame [j] belongs to message [j] of
    the list the loop was entered with, and is built with the last-message
    flag exactly when its index is [num - 1]. *)
Lemma xfer_loop_wire (nr num : Z) (env : nat -> exchange) (msgs : list i2c_msg) :
  forall (i : nat) (il : bool) (w w' : world) (msgs' : list i2c_msg) (r : outcome),
    Z.of_nat i + Z.of_nat (length msgs) <= num ->
    (il = true -> msgs = []) ->
    xfer_loop nr num env i il msgs w = (w', msgs', r) ->
    exists sent,
      wire w' = wire w ++ sent /\
      (length sent <= length msgs)%nat /\
      forall j p, nth_error sent j = Some p ->
        exists m, nth_error msgs j = Some m /\
                  frame_of nr m (Z.of_nat (i + j) =? num - 1) p.
Proof.
  induction msgs as [|m rest IH]; intros i il w w' msgs' r Hnum Hil Hrun.
  - simpl in Hrun. injection Hrun as <- _ _. exists []. rewrite app_nil_r.
    split; [reflexivity|]. split; [reflexivity|]. now intros [|j] p.
  - destruct il; [now specialize (Hil eq_refl)|]. clear Hil.
    rewrite xfer_loop_cons in Hrun. cbv zeta in Hrun.
    destruct (message_call m nr _ (env i) (expecting w nr m)) as [w1 r1] eqn:Hcall.
    apply message_call_wire in Hcall as (z & -> & Hwire).
    simpl length in Hnum.
    assert (Hone : forall p, frame_of nr m
                     (if Z.of_nat i =? num - 1 then true else false) p ->
                   forall j q, nth_error [p] j = Some q ->
                     exists m0, nth_error (m :: rest) j = Some m0 /\
                       frame_of nr m0 (Z.of_nat (i + j) =? num - 1) q).
    { intros p Hp [|j] q Hq; [|now destruct j].
      injection Hq as <-. exists m. split; [reflexivity|].
      rewrite Nat.add_0_r. now destruct (Z.of_nat i =? num - 1). }
    destruct (z <? 0) eqn:Hz.
    + injection Hrun as <- _ _.
      destruct Hwire as [[-> _] | (p & Hw1 & Hp)].
      * exists []. rewrite app_nil_r. split; [reflexivity|].
        split; [simpl; lia|]. now intros [|j] q.
      * exists [p]. split; [exact Hw1|]. split; [simpl; lia|]. now apply Hone.
    + destruct Hwire as [[_ ->] | (p & Hw1 & Hp)].
      { pose proof EINVAL_pos. apply Z.ltb_ge in Hz. lia. }
      destruct (xfer_loop nr num env (S i) _ rest w1) as [[w2 rest'] r'] eqn:Hrest.
      injection Hrun as <- _ _.
      apply IH in Hrest as (sent & Hw2 & Hlen & Hsent).
      * exists (p :: sent). split.
        { rewrite Hw2, Hw1, <- app_assoc. reflexivity. }
        split; [simpl; lia|].
        intros [|j] q Hq.
        { now apply (Hone p Hp 0%nat q). }
        simpl in Hq. apply Hsent in Hq as (m0 & Hm0 & Hf).
        exists m0. split; [exact Hm0|].
        now replace (i + S j)%nat with (S i + j)%nat by lia.
      * lia.
      * destruct (Z.of_nat i =? num - 1) eqn:Hi; [|discriminate].
        intros _. apply Z.eqb_eq in Hi. destruct rest; [reflexivity|].
        simpl length in Hnum. lia.
Qed.

(** ** Aborting a transfer *)

(** The iterations over a prefix of the message array fall through to
    [return num] exactly when none of them returned early; the loop then
    goes on with the rest of the array from the world they left. *)
Lemma xfer_loop_prefix (nr num : Z) (env : nat -> exchange) (rest : list i2c_msg)
  (pre : list i2c_msg) :
  forall (i : nat) (w wk : world) (pre' : list i2c_msg),
    0 <= num ->
    Z.of_nat i + Z.of_nat (length pre) < num ->
    xfer_loop nr num env i false pre w = (wk, pre', Ret num) ->
    xfer_loop nr num env i false (pre ++ rest) w
    = let '(w', rest', r) :=
        xfer_loop nr num env (i + length pre) false rest wk in
      (w', pre' ++ rest', r).
Proof.
  induction pre as [|m pre IH]; intros i w wk pre' Hnum Hlt Hrun.
  - simpl in Hrun. injection Hrun as <- <-. simpl. rewrite Nat.add_0_r.
    now destruct (xfer_loop nr num env i false rest w) as [[? ?] ?].
  - simpl length in Hlt. simpl app.
    rewrite xfer_loop_cons in Hrun |- *. cbv zeta in Hrun |- *.
    replace (Z.of_nat i =? num - 1) with false in Hrun |- *
      by (symmetry; apply Z.eqb_neq; lia).
    destruct (message_call m nr false (env i) (expecting w nr m)) as [w1 [z|]];
      [|discriminate].
    destruct (z <? 0) eqn:Hz.
    + apply Z.ltb_lt in Hz. injection Hrun as _ _ ->. lia.
    + destruct (xfer_loop nr num env (S i) false pre w1) as [[w2 tl] r'] eqn:Hpre.
      injection Hrun as <- <- ->.
      rewrite (IH (S i) w1 w2 tl) by (assumption || lia).
      replace (i + length (m :: pre))%nat with (S i + length pre)%nat
        by (simpl; lia).
      now destruct (xfer_loop nr num env (S i + length pre) false rest w2)
        as [[? ?] ?].
Qed.

(** A message whose call returns a negative value ends the transfer. *)
Lemma xfer_loop_abort (nr : Z) (env : nat -> exchange) (pre : list i2c_msg)
  (m : i2c_msg) (post : list i2c_msg) (w wk w' : world) (pre' : list i2c_msg)
  (e : Z) :
  let msgs := pre ++ m :: post in
  let N := Z.of_nat (length msgs) in
  let k := length pre in
  xfer_loop nr N env 0 false pre w = (wk, pre', Ret N) ->
  message_call m nr (Z.of_nat k =? N - 1) (env k) (expecting wk nr m)
  = (w', Ret e) ->
  e < 0 ->
  i2c_rpbus_xfer nr msgs env w = (w', pre' ++ m :: post, Ret e).
Proof.
  intros msgs N k Hpre Hcall He. unfold i2c_rpbus_xfer. fold N. subst msgs.
  assert (HN : N = Z.of_nat (length pre) + 1 + Z.of_nat (length post)).
  { subst N. rewrite length_app. simpl length. lia. }
  rewrite (xfer_loop_prefix nr N env (m :: post) pre 0%nat w wk pre');
    [|lia|simpl; lia|exact Hpre].
  simpl Nat.add. fold k. rewrite xfer_loop_cons. cbv zeta.
  replace (if Z.of_nat k =? N - 1 then true else false)
    with (Z.of_nat k =? N - 1) by now destruct (Z.of_nat k =? N - 1).
  rewrite Hcall. apply Z.ltb_lt in He. now rewrite He.
Qed.

(** A call that is not refused hands the frame of its message to
    [rpmsg_send], whatever happens to the exchange afterwards. *)
Lemma message_call_sends (m : i2c_msg) (nr : Z) (il : bool) (e : exchange)
  (w : world) :
  refused m w = false ->
  exists p,
    wire (fst (message_call m nr il e w)) = wire w ++ [p] /\ frame_of nr m il p.
Proof.
  intros Href. unfold message_call, frame_of.
  rewrite i2c_rpmsg_read_eq, i2c_rpmsg_write_eq. cbv zeta. rewrite Href.
  destruct (is_read m).
  - exists {| pkt_data := request I2C_RPMSG_COMMAND_READ m nr il (repeat 0 16);
              pkt_len := sizeof_i2c_rpmsg_msg |}.
    split; [|eexists; reflexivity].
    destruct (send_ret e <? 0); [reflexivity|].
    destruct (first_accepted _ _ _) as [p|]; [|reflexivity].
    destruct (negb (rmsg_ret_val (pkt_data p) =? 0)); [reflexivity|].
    now destruct (negb (rmsg_len (pkt_data p) =? msg_len m)).
  - exists {| pkt_data := request I2C_RPMSG_COMMAND_WRITE m nr il
                            (copy_payload (ram w) (msg_buf m) (msg_len m));
              pkt_len := sizeof_i2c_rpmsg_msg |}.
    split; [|eexists; reflexivity].
    destruct (send_ret e <? 0); [reflexivity|].
    now destruct (first_accepted _ _ _).
Qed.

(** Iterations that fall through to [return num] have each handed one
    frame to [rpmsg_send]. *)
Lemma xfer_loop_through_count (nr num : Z) (env : nat -> exchange)
  (msgs : list i2c_msg) :
  forall (i : nat) (il : bool) (w w' : world) (msgs' : list i2c_msg),
    0 <= num ->
    xfer_loop nr num env i il msgs w = (w', msgs', Ret num) ->
    length (wire w') = (length (wire w) + length msgs)%nat.
Proof.
  induction msgs as [|m rest IH]; intros i il w w' msgs' Hnum Hrun.
  - simpl in Hrun. injection Hrun as <- _. simpl. lia.
  - rewrite xfer_loop_cons in Hrun. cbv zeta in Hrun.
    destruct (message_call m nr _ (env i) (expecting w nr m)) as [w1 r1] eqn:Hcall.
    apply message_call_wire in Hcall as (z & -> & Hwire).
    destruct (z <? 0) eqn:Hz.
    { apply Z.ltb_lt in Hz. injection Hrun as _ _ ->. lia. }
    destruct Hwire as [[_ ->] | (p & Hw1 & _)].
    { pose proof EINVAL_pos. apply Z.ltb_ge in Hz. lia. }
    destruct (xfer_loop nr num env (S i) _ rest w1) as [[w2 rest'] r'] eqn:Hrest.
    injection Hrun as <- _ ->.
    apply IH in Hrest; [|exact Hnum].
    rewrite Hrest, Hw1, length_app. simpl. lia.
Qed.

(** C1: in a transfer of N messages the frame built for message i carries
    the message's flags ORed with the STOP bit 0x0200 when i = N-1 and the
    message's flags unchanged when i < N-1, for read and for write messages
    alike (the frame's command tells which of the two built it).  The
    frames are there: whenever message i is reached (the i iterations
    before it fell through) and is not refused, frame i is on the wire with
    these flags; and a transfer that returns N has put N frames on the
    wire, the last of them with the STOP bit. *)
Theorem C1_stop_bit_on_last_frame_only (nr : Z) (msgs : list i2c_msg)
  (env : nat -> exchange) (w : world) :
  Forall (fun m => is_u16 (msg_flags m)) msgs ->
  exists sent,
    wire (fst (fst (i2c_rpbus_xfer nr msgs env w))) = wire w ++ sent /\
    (length sent <= length msgs)%nat /\
    (forall j p, nth_error sent j = Some p ->
      exists m, nth_error msgs j = Some m /\
        hdr_cmd (rmsg_header (pkt_data p))
        = (if is_read m then I2C_RPMSG_COMMAND_READ else I2C_RPMSG_COMMAND_WRITE) /\
        rmsg_flags (pkt_data p)
        = (if Z.of_nat j =? Z.of_nat (length msgs) - 1
           then Z.lor (msg_flags m) I2C_RPMSG_M_STOP
           else msg_flags m)) /\
    (forall pre m post wk pre',
        msgs = pre ++ m :: post ->
        xfer_loop nr (Z.of_nat (length msgs)) env 0 false pre w
        = (wk, pre', Ret (Z.of_nat (length msgs))) ->
        refused m wk = false ->
        exists p,
          nth_error sent (length pre) = Some p /\
          hdr_cmd (rmsg_header (pkt_data p))
          = (if is_read m then I2C_RPMSG_COMMAND_READ
             else I2C_RPMSG_COMMAND_WRITE) /\
          rmsg_flags (pkt_data p)
          = (if Z.of_nat (length pre) =? Z.of_nat (length msgs) - 1
             then Z.lor (msg_flags m) I2C_RPMSG_M_STOP
             else msg_flags m)) /\
    (snd (i2c_rpbus_xfer nr msgs env w) = Ret (Z.of_nat (length msgs)) ->
     length sent = length msgs).
Proof.
  intros Hwf. unfold i2c_rpbus_xfer.
  destruct (xfer_loop nr _ env 0 false msgs w) as [[w' msgs'] r] eqn:Hrun.
  pose proof Hrun as Hrun0.
  apply xfer_loop_wire in Hrun as (sent & Hw & Hlen & Hsent);
    [|simpl; lia|discriminate].
  assert (Hflags : forall j p, nth_error sent j = Some p ->
            exists m, nth_error msgs j = Some m /\
              hdr_cmd (rmsg_header (pkt_data p))
              = (if is_read m then I2C_RPMSG_COMMAND_READ
                 else I2C_RPMSG_COMMAND_WRITE) /\
              rmsg_flags (pkt_data p)
              = (if Z.of_nat j =? Z.of_nat (length msgs) - 1
                 then Z.lor (msg_flags m) I2C_RPMSG_M_STOP
                 else msg_flags m)).
  { intros j p Hp. apply Hsent in Hp as (m & Hm & payload & ->).
    exists m. split; [exact Hm|]. split; [reflexivity|].
    simpl. destruct (Z.of_nat j =? Z.of_nat (length msgs) - 1); [|reflexivity].
    apply lor_stop_u16. rewrite Forall_forall in Hwf. apply Hwf.
    eapply nth_error_In; eassumption. }
  exists sent. split; [exact Hw|]. split; [exact Hlen|].
  split; [exact Hflags|]. split.
  - intros pre m post wk pre' Hmsgs Hpre Href.
    assert (Hk : nth_error msgs (length pre) = Some m).
    { rewrite Hmsgs, nth_error_app2, Nat.sub_diag by lia. reflexivity. }
    assert (HN : Z.of_nat (length msgs)
                 = Z.of_nat (length pre) + 1 + Z.of_nat (length post)).
    { rewrite Hmsgs, length_app. simpl length. lia. }
    assert (Hcount : length (wire wk) = (length (wire w) + length pre)%nat)
      by (apply (xfer_loop_through_count nr (Z.of_nat (length msgs)) env pre
                   0%nat false w wk pre'); [lia | exact Hpre]).
    pose proof Hpre as Hpre0.
    apply xfer_loop_wire in Hpre0 as (spre & Hwk & _ & _);
      [|simpl; lia|discriminate].
    rewrite Hwk, length_app in Hcount.
    assert (Hspre : length spre = length pre) by lia.
    assert (Hfull := Hrun0). rewrite Hmsgs in Hfull at 2.
    rewrite (xfer_loop_prefix nr _ env (m :: post) pre 0%nat w wk pre') in Hfull;
      [|lia|simpl; lia|exact Hpre].
    simpl Nat.add in Hfull. rewrite xfer_loop_cons in Hfull. cbv zeta in Hfull.
    destruct (message_call_sends m nr
                (if Z.of_nat (length pre) =? Z.of_nat (length msgs) - 1
                 then true else false)
                (env (length pre)) (expecting wk nr m) Href)
      as (p & Hw1 & _).
    destruct (message_call m nr _ (env (length pre)) (expecting wk nr m))
      as [w1 r1] eqn:Hcall.
    simpl in Hw1.
    assert (Hmore : exists more, wire w' = wire w1 ++ more).
    { destruct r1 as [z|]; [|injection Hfull as <- _ _; exists [];
                                now rewrite app_nil_r].
      destruct (z <? 0);
        [injection Hfull as <- _ _; exists []; now rewrite app_nil_r|].
      destruct (xfer_loop nr _ env (S (length pre)) _ post w1)
        as [[w2 rest'] r'] eqn:Hpost.
      injection Hfull as <- _ _.
      apply xfer_loop_wire in Hpost as (more & Hm & _).
      - now exists more.
      - lia.
      - destruct (Z.of_nat (length pre) =? Z.of_nat (length msgs) - 1) eqn:Hi;
          [|discriminate].
        intros _. apply Z.eqb_eq in Hi. destruct post; [reflexivity|].
        simpl length in HN. lia. }
    destruct Hmore as (more & Hmore).
    rewrite Hw1, Hwk, <- !app_assoc, Hw in Hmore.
    apply app_inv_head in Hmore. simpl in Hmore.
    assert (Hp : nth_error sent (length pre) = Some p).
    { rewrite Hmore, nth_error_app2, Hspre, Nat.sub_diag by lia. reflexivity. }
    exists p. split; [exact Hp|].
    destruct (Hflags _ _ Hp) as (m0 & Hm0 & Hcmd & Hfl).
    rewrite Hk in Hm0. injection Hm0 as <-. now split.
  - simpl. intros [= ->].
    assert (Hcount : length (wire w') = (length (wire w) + length msgs)%nat)
      by (apply (xfer_loop_through_count nr (Z.of_nat (length msgs)) env msgs
                   0%nat false w w' msgs'); [lia | exact Hrun0]).
    rewrite Hw, length_app in Hcount. lia.
Qed.

(** C2: let message k of a transfer of N messages be reached (the k
    iterations before it fell through, leaving world [wk]) and let its read
    or write return the error [e < 0].  Then the transfer returns exactly
    [e], the message array is left as the first k iterations made it, and
    every frame handed to [rpmsg_send] belongs to a message of index at
    most k: nothing is built or sent for the messages after k. *)
Theorem C2_failure_stops_the_transfer (nr : Z) (pre : list i2c_msg)
  (m : i2c_msg) (post : list i2c_msg) (env : nat -> exchange)
  (w wk w' : world) (pre' : list i2c_msg) (e : Z) :
  let msgs := pre ++ m :: post in
  let N := Z.of_nat (length msgs) in
  let k := length pre in
  xfer_loop nr N env 0 false pre w = (wk, pre', Ret N) ->
  message_call m nr (Z.of_nat k =? N - 1) (env k) (expecting wk nr m)
  = (w', Ret e) ->
  e < 0 ->
  i2c_rpbus_xfer nr msgs env w = (w', pre' ++ m :: post, Ret e) /\
  exists sent,
    wire w' = wire w ++ sent /\
    (length sent <= k + 1)%nat /\
    forall j p, nth_error sent j = Some p ->
      (j <= k)%nat /\
      exists mj, nth_error msgs j = Some mj /\
                 frame_of nr mj (Z.of_nat j =? N - 1) p.
Proof.
  intros msgs N k Hpre Hcall He.
  pose proof (xfer_loop_abort nr env pre m post w wk w' pre' e Hpre Hcall He)
    as Hrun.
  split; [exact Hrun|].
  assert (HN : N = Z.of_nat k + 1 + Z.of_nat (length post)).
  { subst N msgs k. rewrite length_app. simpl length. lia. }
  unfold i2c_rpbus_xfer in Hrun. fold msgs N in Hrun.
  apply xfer_loop_wire in Hrun as (sent & Hw & _ & Hsent);
    [|subst N; simpl; lia|discriminate].
  apply xfer_loop_wire in Hpre as (spre & Hwk & Hlpre & _);
    [|fold k; simpl; lia|discriminate].
  assert (Hlen : (length sent <= k + 1)%nat).
  { apply message_call_wire in Hcall as (z & _ & [[-> _] | (p & Hw' & _)]).
    - simpl in Hw. rewrite Hwk in Hw. apply app_inv_head in Hw. subst sent.
      fold k in Hlpre. lia.
    - simpl in Hw'. rewrite Hwk, <- app_assoc, Hw in Hw'.
      apply app_inv_head in Hw'. subst sent. rewrite length_app. simpl.
      fold k in Hlpre. lia. }
  exists sent. split; [exact Hw|]. split; [exact Hlen|].
  intros j p Hj. split.
  - assert (j < length sent)%nat by (apply nth_error_Some; congruence). lia.
  - apply Hsent in Hj as (mj & Hmj & Hf). exists mj. now split.
Qed.

(** C3: when message k of a transfer is reached, its frame is accepted by
    [rpmsg_send] and the first response the callback accepts carries the
    return code r with 1 <= r <= 255 (the table of the protocol defines 1
    to 13), then the exchange [rpmsg_xfer] returns [- r], the read or write
    returns [- r], and the transfer returns [- r]. *)
Theorem C3_remote_return_code_is_propagated (nr : Z) (pre : list i2c_msg)
  (m : i2c_msg) (post : list i2c_msg) (env : nat -> exchange)
  (w wk : world) (pre' : list i2c_msg) (p : packet) :
  let msgs := pre ++ m :: post in
  let N := Z.of_nat (length msgs) in
  let k := length pre in
  let r := rmsg_ret_val (pkt_data p) in
  xfer_loop nr N env 0 false pre w = (wk, pre', Ret N) ->
  refused m wk = false ->
  0 <= send_ret (env k) ->
  first_accepted (u8 nr) (msg_addr m) (inbox (env k)) = Some p ->
  1 <= r <= 255 ->
  (forall rmsg,
      snd (rpmsg_xfer rmsg (env k) (reinit_completion (expecting wk nr m)))
      = Ret (- r)) /\
  snd (message_call m nr (Z.of_nat k =? N - 1) (env k) (expecting wk nr m))
  = Ret (- r) /\
  snd (i2c_rpbus_xfer nr msgs env w) = Ret (- r).
Proof.
  intros msgs N k r Hpre Href Hsend Hp Hr.
  assert (Hs : (send_ret (env k) <? 0) = false) by (apply Z.ltb_ge; lia).
  assert (Hrv : (rmsg_ret_val (pkt_data p) =? 0) = false)
    by (apply Z.eqb_neq; subst r; lia).
  assert (Hcall : exists w',
             message_call m nr (Z.of_nat k =? N - 1) (env k) (expecting wk nr m)
             = (w', Ret (- r))).
  { unfold message_call.
    rewrite i2c_rpmsg_read_eq, i2c_rpmsg_write_eq. cbv zeta.
    replace (refused m (expecting wk nr m)) with false by (symmetry; exact Href).
    rewrite Hs. simpl info_bus_id. simpl info_addr. rewrite Hp, Hrv. simpl.
    destruct (is_read m); eexists; reflexivity. }
  split; [|split].
  - intros rmsg. rewrite rpmsg_xfer_after_reinit by reflexivity.
    rewrite Hs. simpl info_bus_id. simpl info_addr. rewrite Hp, Hrv.
    reflexivity.
  - destruct Hcall as (w' & ->). reflexivity.
  - destruct Hcall as (w' & Hcall).
    assert (He : - r < 0) by (subst r; lia).
    pose proof (xfer_loop_abort nr env pre m post w wk w' pre' (- r)
                  Hpre Hcall He) as Hrun.
    unfold msgs. now rewrite Hrun.
Qed.

(** ** Local checks *)

Lemma rpmsg_xfer_ram (rmsg : i2c_rpmsg_msg) (e : exchange) (w : world) :
  ram (fst (rpmsg_xfer rmsg e w)) = ram w.
Proof.
  unfold rpmsg_xfer, rpmsg_send.
  destruct (send_ret e <? 0); [reflexivity|].
  destruct (wait_for_completion_timeout _ _) as [i2 ret].
  destruct (ret =? 0); [reflexivity|].
  destruct (msg i2) as [resp|]; [|reflexivity].
  now destruct (negb (rmsg_ret_val resp =? 0)).
Qed.

(** C4: for a read whose exchange succeeded ([rpmsg_xfer] returned 0), a
    stored response whose length differs from the requested one, or no
    stored response at all, makes the read return [-EPROTO] with the
    caller's memory as it was; and whatever a read returns, the caller's
    memory has changed only if the stored response has the requested
    length, in which case the change is the copy of its payload. *)
Theorem C4_read_checks_response_length (m : i2c_msg) (nr : Z) (il : bool)
  (e : exchange) (w : world) :
  (forall w2,
      refused m w = false ->
      rpmsg_xfer (request I2C_RPMSG_COMMAND_READ m nr il (repeat 0 16)) e
        (reinit_completion w) = (w2, Ret 0) ->
      msg (i2c_rpmsg w2) = None \/
      (exists resp, msg (i2c_rpmsg w2) = Some resp /\ rmsg_len resp <> msg_len m) ->
      i2c_rpmsg_read m nr il e w = (w2, Ret (- EPROTO)) /\ ram w2 = ram w) /\
  (forall w' r,
      i2c_rpmsg_read m nr il e w = (w', r) ->
      ram w' = ram w \/
      exists resp,
        msg (i2c_rpmsg w') = Some resp /\
        rmsg_len resp = msg_len m /\
        r = Ret (msg_len m) /\
        ram w' = memcpy (ram w) (msg_buf m) (rmsg_buf resp) (rmsg_len resp)).
Proof.
  split.
  - intros w2 Href Hx Hresp.
    pose proof (rpmsg_xfer_ram
                  (request I2C_RPMSG_COMMAND_READ m nr il (repeat 0 16)) e
                  (reinit_completion w)) as Hram.
    rewrite Hx in Hram. simpl in Hram. split; [|exact Hram].
    unfold refused in Href. apply orb_false_iff in Href as [Hdev Hlen].
    unfold i2c_rpmsg_read. rewrite Hdev, Hlen.
    fold (request I2C_RPMSG_COMMAND_READ m nr il (repeat 0 16)).
    rewrite Hx. simpl.
    destruct Hresp as [-> | (resp & -> & Hne)]; [reflexivity|].
    apply Z.eqb_neq in Hne. now rewrite Hne.
  - intros w' r. rewrite i2c_rpmsg_read_eq. cbv zeta.
    destruct (refused m w); [intros [= <- _]; now left|].
    destruct (send_ret e <? 0); [intros [= <- _]; now left|].
    destruct (first_accepted _ _ _) as [p|]; [|intros [= <- _]; now left].
    destruct (negb (rmsg_ret_val (pkt_data p) =? 0)); [intros [= <- _]; now left|].
    destruct (rmsg_len (pkt_data p) =? msg_len m) eqn:Hlen; simpl;
      [|intros [= <- _]; now left].
    intros [= <- <-]. right. exists (pkt_data p). apply Z.eqb_eq in Hlen.
    repeat split; assumption || reflexivity.
Qed.

(** C5: a message longer than 16 bytes makes the read and the write return
    [-EINVAL] in the world they were called in: no frame was built and
    nothing was handed to [rpmsg_send]. *)
Theorem C5_oversized_message_is_refused (m : i2c_msg) (nr : Z) (il : bool)
  (e : exchange) (w : world) :
  msg_len m > I2C_RPMSG_MAX_BUF_SIZE ->
  i2c_rpmsg_read m nr il e w = (w, Ret (- EINVAL)) /\
  i2c_rpmsg_write m nr il e w = (w, Ret (- EINVAL)) /\
  wire (fst (i2c_rpmsg_read m nr il e w)) = wire w /\
  wire (fst (i2c_rpmsg_write m nr il e w)) = wire w /\
  - EINVAL < 0.
Proof.
  intros Hlen. apply Z.gtb_gt in Hlen.
  unfold i2c_rpmsg_read, i2c_rpmsg_write. rewrite Hlen.
  pose proof EINVAL_pos.
  destruct (rpdev (i2c_rpmsg w)); simpl; repeat split; lia.
Qed.

(** C6: the callback stores the frame and signals the completion if and
    only if the frame's type is Response, its bus id and address are the
    expected ones and its length is at most 16; then it returns 0.  When one
    of the three fails it returns the error [-EINVAL] and leaves the
    driver's state as it was. *)
Theorem C6_callback_accepts_iff (i : i2c_rpmsg_info) (p : packet) :
  let i' := fst (i2c_rpmsg_cb i (pkt_data p) (pkt_len p)) in
  let ret := snd (i2c_rpmsg_cb i (pkt_data p) (pkt_len p)) in
  (stored_and_signalled i i' (pkt_data p)
   <-> accepts (info_bus_id i) (info_addr i) p = true) /\
  (accepts (info_bus_id i) (info_addr i) p = true ->
   ret = 0 /\ i' = complete (set_msg i (Some (pkt_data p)))) /\
  (accepts (info_bus_id i) (info_addr i) p = false ->
   ret = - EINVAL /\ ret < 0 /\ i' = i).
Proof.
  pose proof EINVAL_pos. cbv zeta. unfold stored_and_signalled.
  destruct (accepts (info_bus_id i) (info_addr i) p) eqn:Hp.
  - rewrite (i2c_rpmsg_cb_accepts _ _ Hp). simpl. repeat split; discriminate || auto.
  - rewrite (i2c_rpmsg_cb_rejects _ _ Hp). simpl.
    repeat split; try discriminate; lia.
Qed.

(** ** Timeouts and late packets *)

Lemma first_accepted_skip (bus a : Z) (late : packet) (arriving : list packet) :
  accepts bus a late = false ->
  first_accepted bus a (late :: arriving) = first_accepted bus a arriving.
Proof. unfold first_accepted. simpl. now intros ->. Qed.

Lemma accepts_needs_match (bus a : Z) (late : packet) :
  rmsg_bus_id (pkt_data late) <> bus \/ rmsg_addr (pkt_data late) <> a ->
  accepts bus a late = false.
Proof.
  unfold accepts. intros [H | H]; apply Z.eqb_neq in H; rewrite H;
    now rewrite ?andb_false_r, ?andb_false_l.
Qed.

(** C7, as the code has it: an exchange whose frame was accepted by
    [rpmsg_send] and during whose wait the callback accepted no packet
    returns [-ETIMEDOUT], from [rpmsg_xfer] and from the read or write
    around it.  A packet that arrives later, in whatever state [i] the
    driver then is, is dropped with [-EINVAL] and without effect when its
    bus id or its address differs from the ones expected in [i]; put at
    the head of the inbox of a later exchange for another bus id or
    address, it leaves the outcome of that exchange as it would have been
    without it. *)
Theorem C7_timeout_then_mismatching_late_packet_dropped (m : i2c_msg) (nr : Z)
  (il : bool) (e : exchange) (w : world) :
  refused m w = false ->
  0 <= send_ret e ->
  first_accepted (info_bus_id (i2c_rpmsg w)) (info_addr (i2c_rpmsg w)) (inbox e)
  = None ->
  (forall rmsg, snd (rpmsg_xfer rmsg e (reinit_completion w)) = Ret (- ETIMEDOUT)) /\
  snd (message_call m nr il e w) = Ret (- ETIMEDOUT) /\
  (forall (i : i2c_rpmsg_info) (late : packet),
      rmsg_bus_id (pkt_data late) <> info_bus_id i \/
      rmsg_addr (pkt_data late) <> info_addr i ->
      i2c_rpmsg_cb i (pkt_data late) (pkt_len late) = (i, - EINVAL)) /\
  (forall (late : packet) (m2 : i2c_msg) (nr2 : Z) (il2 : bool) (s2 : Z)
          (arriving : list packet) (w2 : world),
      rmsg_bus_id (pkt_data late) <> u8 nr2 \/
      rmsg_addr (pkt_data late) <> msg_addr m2 ->
      message_call m2 nr2 il2 {| send_ret := s2; inbox := late :: arriving |}
        (expecting w2 nr2 m2)
      = message_call m2 nr2 il2 {| send_ret := s2; inbox := arriving |}
          (expecting w2 nr2 m2)).
Proof.
  intros Href Hsend Hnone.
  assert (Hs : (send_ret e <? 0) = false) by (apply Z.ltb_ge; lia).
  split; [|split; [|split]].
  - intros rmsg. rewrite rpmsg_xfer_after_reinit by reflexivity.
    rewrite Hs. simpl info_bus_id. simpl info_addr. now rewrite Hnone.
  - unfold message_call. rewrite i2c_rpmsg_read_eq, i2c_rpmsg_write_eq.
    cbv zeta. rewrite Href, Hs, Hnone. now destruct (is_read m).
  - intros i late Hlate. apply i2c_rpmsg_cb_rejects.
    now apply accepts_needs_match.
  - intros late m2 nr2 il2 s2 arriving w2 Hlate.
    apply accepts_needs_match in Hlate.
    unfold message_call. rewrite !i2c_rpmsg_read_eq, !i2c_rpmsg_write_eq.
    cbv zeta. simpl send_ret. simpl inbox. simpl info_bus_id. simpl info_addr.
    now rewrite (first_accepted_skip _ _ _ _ Hlate).
Qed.

(** C8, as the code has it: the callback never looks at the byte count it
    is given, so its result is the same for every byte count; a frame whose
    length field exceeds 16 is dropped with [-EINVAL] and the driver's
    state is left as it was. *)
Theorem C8_callback_ignores_byte_count (i : i2c_rpmsg_info)
  (data : i2c_rpmsg_msg) (len len' : Z) :
  i2c_rpmsg_cb i data len = i2c_rpmsg_cb i data len' /\
  (rmsg_len data > I2C_RPMSG_MAX_BUF_SIZE ->
   i2c_rpmsg_cb i data len = (i, - EINVAL)).
Proof.
  split; [reflexivity|]. intros Hlen. apply Z.gtb_gt in Hlen.
  unfold i2c_rpmsg_cb. rewrite Hlen.
  destruct (negb _); [reflexivity|]. now destruct (_ || _).
Qed.

(** ** Transfers that go through *)

Lemma set_msg_len_same (m : i2c_msg) :
  0 <= msg_len m <= I2C_RPMSG_MAX_BUF_SIZE ->
  set_msg_len m (u16 (msg_len m)) = m.
Proof.
  unfold I2C_RPMSG_MAX_BUF_SIZE, u16, set_msg_len. intros H.
  rewrite Z.mod_small by lia. now destruct m.
Qed.

Lemma message_call_succeeds (m : i2c_msg) (nr : Z) (il : bool) (e : exchange)
  (w : world) :
  rpdev (i2c_rpmsg w) = true ->
  exchange_succeeds nr m e ->
  exists w',
    message_call m nr il e (expecting w nr m)
    = (w', Ret (if is_read m then msg_len m else 0)) /\
    rpdev (i2c_rpmsg w') = true /\
    length (wire w') = S (length (wire w)).
Proof.
  intros Hdev (Hlen & Hsend & p & Hp & Hrv & Hrd).
  assert (Href : refused m (expecting w nr m) = false).
  { unfold refused. simpl. rewrite Hdev. simpl.
    rewrite Z.gtb_ltb. apply Z.ltb_ge. lia. }
  assert (Hs : (send_ret e <? 0) = false) by (apply Z.ltb_ge; lia).
  unfold message_call. rewrite i2c_rpmsg_read_eq, i2c_rpmsg_write_eq. cbv zeta.
  rewrite Href, Hs. simpl info_bus_id. simpl info_addr. rewrite Hp, Hrv. simpl.
  destruct (is_read m).
  - rewrite (Hrd eq_refl), Z.eqb_refl. simpl. eexists. split; [reflexivity|].
    simpl. split; [exact Hdev|]. rewrite length_app. simpl. lia.
  - eexists. split; [reflexivity|]. simpl. split; [exact Hdev|].
    rewrite length_app. simpl. lia.
Qed.

Lemma xfer_loop_succeeds (nr num : Z) (env : nat -> exchange)
  (msgs : list i2c_msg) :
  forall (i : nat) (il : bool) (w : world),
    rpdev (i2c_rpmsg w) = true ->
    (forall j m, nth_error msgs j = Some m ->
                 exchange_succeeds nr m (env (i + j)%nat)) ->
    exists w',
      xfer_loop nr num env i il msgs w = (w', msgs, Ret num) /\
      length (wire w') = (length (wire w) + length msgs)%nat.
Proof.
  induction msgs as [|m rest IH]; intros i il w Hdev Hall.
  - exists w. simpl. split; [reflexivity | lia].
  - pose proof (Hall 0%nat m eq_refl) as Hm. rewrite Nat.add_0_r in Hm.
    rewrite xfer_loop_cons. cbv zeta.
    destruct (message_call_succeeds m nr
                (if Z.of_nat i =? num - 1 then true else il) (env i) w Hdev Hm)
      as (w1 & -> & Hdev1 & Hw1).
    destruct Hm as (Hlen & _ & p & _ & _ & _).
    replace ((if is_read m then msg_len m else 0) <? 0) with false
      by (symmetry; apply Z.ltb_ge; destruct (is_read m); lia).
    destruct (IH (S i) (if Z.of_nat i =? num - 1 then true else il) w1 Hdev1)
      as (w2 & -> & Hw2).
    { intros j mj Hj. replace (S i + j)%nat with (i + S j)%nat by lia.
      now apply Hall. }
    exists w2. split.
    + destruct (is_read m); [|reflexivity]. now rewrite set_msg_len_same.
    + rewrite Hw2, Hw1. simpl. lia.
Qed.

(** C9: when the channel is bound and the exchange of every message goes
    through (length at most 16, send accepted, an accepted response with
    return code zero and, for a read, the requested length), the transfer
    of N messages returns N and hands N frames to [rpmsg_send]; the read of
    each read-direction message returns the message's length, the message
    array is as it was, and so the length recorded for a read message is
    the length its read returned, which is that of the response accepted
    for it. *)
Theorem C9_successful_transfer_returns_count (nr : Z) (msgs : list i2c_msg)
  (env : nat -> exchange) (w : world) :
  rpdev (i2c_rpmsg w) = true ->
  (forall j m, nth_error msgs j = Some m -> exchange_succeeds nr m (env j)) ->
  exists w',
    i2c_rpbus_xfer nr msgs env w = (w', msgs, Ret (Z.of_nat (length msgs))) /\
    length (wire w') = (length (wire w) + length msgs)%nat /\
    forall j m,
      nth_error msgs j = Some m ->
      is_read m = true ->
      (forall il w0,
          rpdev (i2c_rpmsg w0) = true ->
          snd (i2c_rpmsg_read m nr il (env j) (expecting w0 nr m))
          = Ret (msg_len m)) /\
      (forall p,
          first_accepted (u8 nr) (msg_addr m) (inbox (env j)) = Some p ->
          msg_len m = rmsg_len (pkt_data p)).
Proof.
  intros Hdev Hall.
  destruct (xfer_loop_succeeds nr (Z.of_nat (length msgs)) env msgs 0 false w
              Hdev Hall) as (w' & Hrun & Hw').
  exists w'. split; [exact Hrun|]. split; [exact Hw'|].
  intros j m Hj Hrd. split.
  - intros il w0 Hdev0.
    destruct (message_call_succeeds m nr il (env j) w0 Hdev0 (Hall j m Hj))
      as (w1 & Hcall & _).
    unfold message_call in Hcall. rewrite Hrd in Hcall. now rewrite Hcall.
  - intros p Hp. destruct (Hall j m Hj) as (_ & _ & q & Hq & _ & Hlen).
    rewrite Hp in Hq. injection Hq as <-. symmetry. now apply Hlen.
Qed.

(** ** What a transfer leaves untouched *)

Lemma message_call_ram (m : i2c_msg) (nr : Z) (il : bool) (e : exchange)
  (w w' : world) (r : outcome) :
  message_call m nr il e w = (w', r) ->
  (is_read m = false -> ram w' = ram w) /\
  (forall a, ~ (msg_buf m <= a < msg_buf m + msg_len m) -> ram w' a = ram w a).
Proof.
  unfold message_call. rewrite i2c_rpmsg_read_eq, i2c_rpmsg_write_eq. cbv zeta.
  destruct (is_read m).
  - destruct (refused m w); [intros [= <- _]; now split|].
    destruct (send_ret e <? 0); [intros [= <- _]; now split|].
    destruct (first_accepted _ _ _) as [p|]; [|intros [= <- _]; now split].
    destruct (negb (rmsg_ret_val (pkt_data p) =? 0)); [intros [= <- _]; now split|].
    destruct (rmsg_len (pkt_data p) =? msg_len m) eqn:Hlen; simpl;
      [|intros [= <- _]; now split].
    intros [= <- _]. split; [discriminate|]. intros a Ha. simpl.
    apply Z.eqb_eq in Hlen. unfold memcpy.
    destruct ((msg_buf m <=? a) && (a <? msg_buf m + rmsg_len (pkt_data p)))
      eqn:Hin; [|reflexivity].
    apply andb_prop in Hin as [H1 H2]. apply Z.leb_le in H1.
    apply Z.ltb_lt in H2. lia.
  - destruct (refused m w); [intros [= <- _]; now split|].
    destruct (send_ret e <? 0); [intros [= <- _]; now split|].
    destruct (first_accepted _ _ _) as [p|]; intros [= <- _]; now split.
Qed.

Lemma xfer_loop_frame (nr num : Z) (env : nat -> exchange) (msgs : list i2c_msg) :
  forall (i : nat) (il : bool) (w w' : world) (msgs' : list i2c_msg) (r : outcome),
    xfer_loop nr num env i il msgs w = (w', msgs', r) ->
    (forall j m, nth_error msgs j = Some m ->
       exists m', nth_error msgs' j = Some m' /\ same_target m m' /\
                  (is_read m = false -> m' = m)) /\
    (forall a,
       (forall m, In m msgs -> is_read m = true ->
                  ~ (msg_buf m <= a < msg_buf m + msg_len m)) ->
       ram w' a = ram w a).
Proof.
  induction msgs as [|m rest IH]; intros i il w w' msgs' r Hrun.
  - simpl in Hrun. injection Hrun as <- <- _.
    split; [now intros [|j] m | reflexivity].
  - rewrite xfer_loop_cons in Hrun. cbv zeta in Hrun.
    destruct (message_call m nr _ (env i) (expecting w nr m)) as [w1 r1] eqn:Hcall.
    apply message_call_ram in Hcall as [Hwr Hout]. simpl in Hwr, Hout.
    assert (Hstep : forall a,
               (forall m0, In m0 (m :: rest) -> is_read m0 = true ->
                           ~ (msg_buf m0 <= a < msg_buf m0 + msg_len m0)) ->
               ram w1 a = ram w a).
    { intros a Ha. destruct (is_read m) eqn:Hrd.
      - apply Hout. apply Ha; [now left | exact Hrd].
      - now rewrite Hwr. }
    assert (Hstay : forall j m0, nth_error (m :: rest) j = Some m0 ->
               exists m', nth_error (m :: rest) j = Some m' /\ same_target m0 m' /\
                          (is_read m0 = false -> m' = m0)).
    { intros j m0 Hj. exists m0. now repeat split. }
    destruct r1 as [z|]; [|injection Hrun as <- <- _; now split].
    destruct (z <? 0); [injection Hrun as <- <- _; now split|].
    destruct (xfer_loop nr num env (S i) _ rest w1) as [[w2 rest'] r'] eqn:Hrest.
    injection Hrun as <- <- _.
    apply IH in Hrest as [Hmsgs Hram]. split.
    + intros [|j] m0 Hj.
      * injection Hj as <-. simpl. eexists. split; [reflexivity|].
        destruct (is_read m); [|now repeat split].
        split; [now repeat split | discriminate].
      * simpl in Hj |- *. now apply Hmsgs.
    + intros a Ha. rewrite Hram, Hstep; [reflexivity | exact Ha |].
      intros m0 Hin. apply Ha. now right.
Qed.

(** C10: a write leaves the caller's memory as it was, whatever it returns;
    and after a transfer every write-direction message of the array is the
    message it was (length included), every message still has its address,
    flags and buffer pointer, and the only bytes of memory that can have
    changed lie in the buffer of a read-direction message. *)
Theorem C10_write_messages_untouched (nr : Z) (msgs : list i2c_msg)
  (env : nat -> exchange) (w : world) :
  (forall m il e w0, ram (fst (i2c_rpmsg_write m nr il e w0)) = ram w0) /\
  let '(w', msgs', _) := i2c_rpbus_xfer nr msgs env w in
  (forall j m, nth_error msgs j = Some m -> is_read m = false ->
               nth_error msgs' j = Some m) /\
  (forall j m, nth_error msgs j = Some m ->
               exists m', nth_error msgs' j = Some m' /\ same_target m m') /\
  (forall a,
      (forall m, In m msgs -> is_read m = true ->
                 ~ (msg_buf m <= a < msg_buf m + msg_len m)) ->
      ram w' a = ram w a).
Proof.
  split.
  - intros m il e w0. rewrite i2c_rpmsg_write_eq. cbv zeta.
    destruct (refused m w0); [reflexivity|].
    destruct (send_ret e <? 0); [reflexivity|].
    now destruct (first_accepted _ _ _).
  - unfold i2c_rpbus_xfer.
    destruct (xfer_loop nr _ env 0 false msgs w) as [[w' msgs'] r] eqn:Hrun.
    apply xfer_loop_frame in Hrun as [Hmsgs Hram].
    split; [|split; [|exact Hram]].
    + intros j m Hj Hwr. destruct (Hmsgs j m Hj) as (m' & Hm' & _ & Heq).
      now rewrite Hm', (Heq Hwr).
    + intros j m Hj. destruct (Hmsgs j m Hj) as (m' & Hm' & Hsame & _).
      now exists m'.
Qed.

End Properties.

(** * The theorems at the concrete configuration *)

Example stop_bit_example :
  map (fun p => rmsg_flags (pkt_data p))
      (wire (fst (fst (i2c_rpbus_xfer (K := linux) 1 [write_0x50; read_0x50]
                         peer_answers boot))))
  = [0; 0x0201].
Proof. vm_compute. reflexivity. Qed.

Example read_fills_buffer_example :
  let '(w', msgs', r) :=
    i2c_rpbus_xfer (K := linux) 1 [write_0x50; read_0x50] peer_answers boot in
  r = Ret 2 /\ msgs' = [write_0x50; read_0x50] /\
  map (ram w') [100; 200; 201; 202] = [0xAA; 0x12; 0x34; 0].
Proof. vm_compute. repeat split. Qed.

(** The frames of the transfer [write; read] on bus 1: two frames, the
    first with the write's flags, the second with the read's flags and the
    STOP bit. *)
Lemma C1_witness :
  exists p0 p1,
    wire (fst (fst (i2c_rpbus_xfer (K := linux) 1 [write_0x50; read_0x50]
                      peer_answers boot)))
    = [p0; p1] /\
    rmsg_flags (pkt_data p0) = 0 /\
    rmsg_flags (pkt_data p1) = 0x0201.
Proof.
  destruct (C1_stop_bit_on_last_frame_only (K := linux) 1
              [write_0x50; read_0x50] peer_answers boot)
    as (sent & Hw & _ & Hall & _ & Hcount).
  - repeat apply Forall_cons; try apply Forall_nil; unfold is_u16; simpl; lia.
  - specialize (Hcount eq_refl).
    destruct sent as [|p0 [|p1 [|p2 sent]]]; try discriminate Hcount.
    exists p0, p1. split; [exact Hw|].
    destruct (Hall 0%nat p0 eq_refl) as (m0 & Hm0 & _ & Hf0).
    destruct (Hall 1%nat p1 eq_refl) as (m1 & Hm1 & _ & Hf1).
    injection Hm0 as <-. injection Hm1 as <-.
    split; [exact Hf0 | exact Hf1].
Defined.

(** Three messages, the second one answered with return code 10. *)
Lemma C2_witness :
  snd (i2c_rpbus_xfer (K := linux) 1 [write_0x50; read_0x50; write_0x50]
         peer_fails_second boot) = Ret (-10) /\
  (length (wire (fst (fst (i2c_rpbus_xfer (K := linux) 1
                             [write_0x50; read_0x50; write_0x50]
                             peer_fails_second boot)))) <= 2)%nat.
Proof.
  edestruct (C2_failure_stops_the_transfer (K := linux) 1 [write_0x50]
               read_0x50 [write_0x50] peer_fails_second boot)
    as [Hrun (sent & Hw & Hlen & _)].
  - reflexivity.
  - reflexivity.
  - reflexivity.
  - cbn [app] in Hrun. split; [exact (f_equal snd Hrun)|].
    rewrite Hrun.
    exact (eq_ind_r (fun n => (n <= 2)%nat) Hlen (f_equal (@length packet) Hw)).
Defined.

Lemma C3_witness :
  snd (i2c_rpbus_xfer (K := linux) 1 [write_0x50; read_0x50; write_0x50]
         peer_fails_second boot) = Ret (-10).
Proof.
  edestruct (C3_remote_return_code_is_propagated (K := linux) 1 [write_0x50]
               read_0x50 [write_0x50] peer_fails_second boot)
    as (_ & _ & Hrun).
  - reflexivity.
  - reflexivity.
  - simpl. lia.
  - reflexivity.
  - simpl. lia.
  - exact Hrun.
Defined.

(** A read of two bytes answered with one byte. *)
Lemma C4_witness :
  snd (i2c_rpmsg_read (K := linux) read_0x50 1 true read_short
         (expecting boot 1 read_0x50)) = Ret (-71) /\
  ram (fst (i2c_rpmsg_read (K := linux) read_0x50 1 true read_short
              (expecting boot 1 read_0x50))) 200 = 0.
Proof.
  edestruct (proj1 (C4_read_checks_response_length (K := linux) read_0x50 1 true
                      read_short (expecting boot 1 read_0x50)))
    as [Hrun Hram].
  - reflexivity.
  - reflexivity.
  - right. eexists. split; [reflexivity | discriminate].
  - rewrite Hrun. split; [reflexivity|]. cbn [fst]. now rewrite Hram.
Defined.

(** A write of seventeen bytes. *)
Lemma C5_witness :
  i2c_rpmsg_write (K := linux) oversized_0x50 1 true write_ok boot
  = (boot, Ret (-22)).
Proof.
  apply (C5_oversized_message_is_refused (K := linux) oversized_0x50 1 true
           write_ok boot).
  reflexivity.
Defined.

(** The expected response is stored; one for another address is dropped. *)
Lemma C6_witness :
  let p := reply I2C_RPMSG_COMMAND_READ 1 0x50 0 1 [0x12] in
  let q := reply I2C_RPMSG_COMMAND_READ 1 0x51 0 1 [0x12] in
  let i := set_expected idle 1 0x50 in
  i2c_rpmsg_cb (K := linux) i (pkt_data p) (pkt_len p)
  = (complete (set_msg i (Some (pkt_data p))), 0) /\
  i2c_rpmsg_cb (K := linux) i (pkt_data q) (pkt_len q) = (i, -22).
Proof.
  intros p q i. split.
  - destruct (C6_callback_accepts_iff (K := linux) i p) as (_ & Hyes & _).
    destruct (Hyes eq_refl) as [Hret Hst].
    now rewrite (surjective_pairing (i2c_rpmsg_cb i _ _)), Hret, Hst.
  - destruct (C6_callback_accepts_iff (K := linux) i q) as (_ & _ & Hno).
    destruct (Hno eq_refl) as (Hret & _ & Hst).
    now rewrite (surjective_pairing (i2c_rpmsg_cb i _ _)), Hret, Hst.
Defined.

(** A write nobody answers, and a packet for another address afterwards. *)
Lemma C7_witness :
  snd (message_call (K := linux) write_0x50 1 true silence
         (expecting boot 1 write_0x50)) = Ret (-110) /\
  i2c_rpmsg_cb (K := linux)
    (i2c_rpmsg (fst (message_call (K := linux) write_0x50 1 true silence
                       (expecting boot 1 write_0x50))))
    (pkt_data (reply I2C_RPMSG_COMMAND_WRITE 1 0x51 0 1 [0xAA])) 34
  = (i2c_rpmsg (fst (message_call (K := linux) write_0x50 1 true silence
                       (expecting boot 1 write_0x50))), -22).
Proof.
  destruct (C7_timeout_then_mismatching_late_packet_dropped (K := linux)
              write_0x50 1 true silence (expecting boot 1 write_0x50))
    as (_ & Hcall & Hlate & _).
  - reflexivity.
  - simpl. lia.
  - reflexivity.
  - split; [exact Hcall|].
    apply (Hlate _ (reply I2C_RPMSG_COMMAND_WRITE 1 0x51 0 1 [0xAA])).
    right. discriminate.
Defined.

(** A response announcing seventeen bytes. *)
Lemma C8_witness :
  i2c_rpmsg_cb (K := linux) (set_expected idle 1 0x50)
    (pkt_data (reply I2C_RPMSG_COMMAND_READ 1 0x50 0 17 [])) 34
  = (set_expected idle 1 0x50, -22).
Proof.
  apply (C8_callback_ignores_byte_count (K := linux) (set_expected idle 1 0x50)
           (pkt_data (reply I2C_RPMSG_COMMAND_READ 1 0x50 0 17 [])) 34 34).
  reflexivity.
Defined.

(** One write of the byte 0xAA to address 0x50 on bus 1, answered with
    return code 0: the transfer returns 1. *)
Lemma C9_witness :
  snd (i2c_rpbus_xfer (K := linux) 1 [write_0x50] (fun _ => write_ok) boot)
  = Ret 1.
Proof.
  destruct (C9_successful_transfer_returns_count (K := linux) 1 [write_0x50]
              (fun _ => write_ok) boot) as (w' & Hrun & _).
  - reflexivity.
  - intros [|[|j]] m Hm; try discriminate. injection Hm as <-.
    split; [simpl; unfold I2C_RPMSG_MAX_BUF_SIZE; lia|].
    split; [simpl; lia|].
    exists (reply I2C_RPMSG_COMMAND_WRITE 1 0x50 0 1 [0xAA]).
    split; [reflexivity|]. split; [reflexivity | discriminate].
  - now rewrite Hrun.
Defined.

(** After [write; read] the write message and the byte it points to are
    what they were. *)
Lemma C10_witness :
  nth_error (snd (fst (i2c_rpbus_xfer (K := linux) 1 [write_0x50; read_0x50]
                         peer_answers boot))) 0 = Some write_0x50 /\
  ram (fst (fst (i2c_rpbus_xfer (K := linux) 1 [write_0x50; read_0x50]
                   peer_answers boot))) 100 = ram boot 100.
Proof.
  pose proof (C10_write_messages_untouched (K := linux) 1
                [write_0x50; read_0x50] peer_answers boot) as H.
  remember (i2c_rpbus_xfer (K := linux) 1 [write_0x50; read_0x50]
              peer_answers boot) as t eqn:Et in *.
  clear Et. destruct t as [[w' msgs'] r].
  destruct H as (_ & Hwr & _ & Hram). cbn [fst snd]. split.
  - apply Hwr; reflexivity.
  - apply Hram. intros m [<- | [<- | []]]; [discriminate|].
    intros _. simpl. lia.
Defined.

(** * Where the code departs from the specification *)

(** C7, counterexample: a one-byte read of address 0x50 on bus 1 is not
    answered and returns [-ETIMEDOUT].  Its response, carrying the byte
    0x11, arrives afterwards: delivered right after the timeout the
    callback accepts it (it returns 0 and stores the frame); delivered
    during the next read of the same address, ahead of that read's own
    response carrying 0x22, it completes that read, whose buffer receives
    0x11. *)
Lemma C7_late_response_resolves_next_exchange :
  let late := reply I2C_RPMSG_COMMAND_READ 1 0x50 0 1 [0x11] in
  let fresh := reply I2C_RPMSG_COMMAND_READ 1 0x50 0 1 [0x22] in
  let first := i2c_rpbus_xfer (K := linux) 1 [read1_0x50] (fun _ => silence) boot in
  let w1 := fst (fst first) in
  let second :=
    i2c_rpbus_xfer (K := linux) 1 [read1_0x50]
      (fun _ => {| send_ret := 0; inbox := [late; fresh] |}) w1 in
  snd first = Ret (-110) /\
  snd (i2c_rpmsg_cb (K := linux) (i2c_rpmsg w1) (pkt_data late) (pkt_len late)) = 0 /\
  msg (fst (i2c_rpmsg_cb (K := linux) (i2c_rpmsg w1) (pkt_data late) (pkt_len late)))
  = Some (pkt_data late) /\
  snd second = Ret 1 /\
  msg (i2c_rpmsg (fst (fst second))) = Some (pkt_data late) /\
  ram (fst (fst second)) 200 = 0x11.
Proof. vm_compute. repeat split. Qed.

(** C8, counterexample: a packet of ten bytes, not the thirty-four of the
    frame, whose memory read through the struct shows an expected response
    is accepted: the callback returns 0, stores the frame and signals the
    completion. *)
Lemma C8_short_packet_is_accepted :
  let p := {| pkt_data := pkt_data (reply I2C_RPMSG_COMMAND_READ 1 0x50 0 1 [0x12]);
              pkt_len := 10 |} in
  let i := set_expected idle 1 0x50 in
  sizeof_i2c_rpmsg_msg = 34 /\
  pkt_len p <> sizeof_i2c_rpmsg_msg /\
  i2c_rpmsg_cb (K := linux) i (pkt_data p) (pkt_len p)
  = (complete (set_msg i (Some (pkt_data p))), 0).
Proof. vm_compute. repeat split. discriminate. Qed.

(** * Further properties of the driver *)

Section Further.

Context {K : kernel_headers}.

(** ** What a transfer can return *)

Lemma xfer_loop_result (nr num : Z) (env : nat -> exchange) (msgs : list i2c_msg) :
  forall (i : nat) (il : bool) (w : world),
  exists z,
    snd (xfer_loop nr num env i il msgs w) = Ret z /\ (z = num \/ z < 0).
Proof.
  induction msgs as [|m rest IH]; intros i il w.
  - exists num. simpl. now split; [|left].
  - rewrite xfer_loop_cons. cbv zeta.
    destruct (message_call m nr _ (env i) (expecting w nr m)) as [w1 r1] eqn:Hcall.
    apply message_call_wire in Hcall as (z & -> & _).
    destruct (z <? 0) eqn:Hz.
    + exists z. apply Z.ltb_lt in Hz. now split; [|right].
    + destruct (IH (S i) (if Z.of_nat i =? num - 1 then true else il) w1)
        as (z' & Hz' & Hd).
      destruct (xfer_loop nr num env (S i) _ rest w1) as [[w2 rest'] r'].
      exists z'. now split.
Qed.

(** X1: a transfer of N messages never dereferences a NULL response
    pointer, and what it returns is either N or a negative value: there is
    no count of the messages done before a failure. *)
Theorem xfer_returns_count_or_error (nr : Z) (msgs : list i2c_msg)
  (env : nat -> exchange) (w : world) :
  exists z,
    snd (i2c_rpbus_xfer nr msgs env w) = Ret z /\
    (z = Z.of_nat (length msgs) \/ z < 0).
Proof. apply xfer_loop_result. Qed.

(** ** Success, the other way round *)

Lemma first_accepted_in (bus a : Z) (arriving : list packet) (p : packet) :
  first_accepted bus a arriving = Some p ->
  In p arriving /\ accepts bus a p = true.
Proof. unfold first_accepted. apply find_some. Qed.

Lemma message_call_nonneg (m : i2c_msg) (nr : Z) (il : bool) (e : exchange)
  (w w1 : world) (z : Z) :
  message_call m nr il e (expecting w nr m) = (w1, Ret z) ->
  0 <= z ->
  0 <= msg_len m ->
  (forall p, In p (inbox e) -> ret_val_is_u8 p) ->
  exchange_succeeds nr m e /\
  rpdev (i2c_rpmsg w) = true /\
  rpdev (i2c_rpmsg w1) = true /\
  z = (if is_read m then msg_len m else 0) /\
  length (wire w1) = S (length (wire w)).
Proof.
  pose proof EINVAL_pos. pose proof ETIMEDOUT_pos. pose proof EPROTO_pos.
  intros Hcall Hz Hlen Hwf. unfold message_call in Hcall.
  rewrite i2c_rpmsg_read_eq, i2c_rpmsg_write_eq in Hcall. cbv zeta in Hcall.
  unfold exchange_succeeds.
  destruct (refused m (expecting w nr m)) eqn:Href.
  { destruct (is_read m); injection Hcall as _ <-; lia. }
  unfold refused in Href. simpl in Href.
  apply orb_false_iff in Href as [Hdev Hmax].
  apply negb_false_iff in Hdev.
  rewrite Z.gtb_ltb in Hmax. apply Z.ltb_ge in Hmax.
  destruct (send_ret e <? 0) eqn:Hs.
  { apply Z.ltb_lt in Hs. destruct (is_read m); injection Hcall as _ <-; lia. }
  apply Z.ltb_ge in Hs. simpl info_bus_id in Hcall. simpl info_addr in Hcall.
  destruct (first_accepted (u8 nr) (msg_addr m) (inbox e)) as [p|] eqn:Hp.
  2:{ destruct (is_read m); injection Hcall as _ <-; lia. }
  destruct (first_accepted_in _ _ _ _ Hp) as [Hin _].
  specialize (Hwf p Hin). unfold ret_val_is_u8 in Hwf.
  destruct (rmsg_ret_val (pkt_data p) =? 0) eqn:Hrv; simpl in Hcall.
  2:{ apply Z.eqb_neq in Hrv. destruct (is_read m); injection Hcall as _ <-; lia. }
  apply Z.eqb_eq in Hrv.
  destruct (is_read m).
  - destruct (rmsg_len (pkt_data p) =? msg_len m) eqn:Hl; simpl in Hcall.
    2:{ injection Hcall as _ <-; lia. }
    apply Z.eqb_eq in Hl. injection Hcall as <- <-. simpl.
    rewrite length_app. simpl.
    repeat split; try assumption; try lia. exists p. now repeat split.
  - injection Hcall as <- <-. simpl. rewrite length_app. simpl.
    repeat split; try assumption; try lia. exists p.
    repeat split; try assumption. discriminate.
Qed.

Lemma xfer_loop_success_inv (nr num : Z) (env : nat -> exchange)
  (msgs : list i2c_msg) :
  forall (i : nat) (il : bool) (w w' : world) (msgs' : list i2c_msg),
    xfer_loop nr num env i il msgs w = (w', msgs', Ret num) ->
    0 <= num ->
    (forall m, In m msgs -> 0 <= msg_len m) ->
    (forall j p, In p (inbox (env j)) -> ret_val_is_u8 p) ->
    (forall j m, nth_error msgs j = Some m ->
                 exchange_succeeds nr m (env (i + j)%nat)) /\
    (msgs <> [] -> rpdev (i2c_rpmsg w) = true) /\
    length (wire w') = (length (wire w) + length msgs)%nat /\
    msgs' = msgs.
Proof.
  induction msgs as [|m rest IH]; intros i il w w' msgs' Hrun Hnum Hlen Hwf.
  - simpl in Hrun. injection Hrun as <- <-. simpl.
    split; [now intros [|j] m0|]. split; [easy|]. split; [lia | reflexivity].
  - rewrite xfer_loop_cons in Hrun. cbv zeta in Hrun.
    destruct (message_call m nr _ (env i) (expecting w nr m)) as [w1 r1] eqn:Hcall.
    destruct (message_call_wire _ _ _ _ _ _ _ Hcall) as (z & -> & _).
    destruct (z <? 0) eqn:Hz.
    { apply Z.ltb_lt in Hz. injection Hrun as _ _ ->. lia. }
    apply Z.ltb_ge in Hz.
    destruct (message_call_nonneg _ _ _ _ _ _ _ Hcall Hz
                (Hlen m (or_introl eq_refl)) (Hwf i))
      as (Hok & Hdev & Hdev1 & -> & Hw1).
    destruct (xfer_loop nr num env (S i) _ rest w1) as [[w2 rest'] r'] eqn:Hrest.
    injection Hrun as <- <- ->.
    apply IH in Hrest as (Hall & _ & Hw2 & ->); try assumption.
    2:{ intros m0 Hm0. apply Hlen. now right. }
    split; [|split; [|split]].
    + intros [|j] m0 Hj.
      * injection Hj as <-. now rewrite Nat.add_0_r.
      * replace (i + S j)%nat with (S i + j)%nat by lia. now apply Hall.
    + intros _. exact Hdev.
    + rewrite Hw2, Hw1. simpl. lia.
    + f_equal. destruct (is_read m); [|reflexivity].
      apply set_msg_len_same. destruct Hok as (Hb & _). exact Hb.
Qed.

(** X2: if a transfer of N messages returns N (messages with a length of at
    least zero, response packets with a byte as return code), then the
    exchange of every one of its messages went through (send accepted, a
    first accepted response with return code 0 and, for a read, the
    requested length), exactly N frames were handed to [rpmsg_send], the
    message array is as it was, and the channel was bound unless the list
    was empty. *)
Theorem xfer_count_means_every_exchange_succeeded (nr : Z) (msgs : list i2c_msg)
  (env : nat -> exchange) (w w' : world) (msgs' : list i2c_msg) :
  (forall m, In m msgs -> 0 <= msg_len m) ->
  (forall j p, In p (inbox (env j)) -> ret_val_is_u8 p) ->
  i2c_rpbus_xfer nr msgs env w = (w', msgs', Ret (Z.of_nat (length msgs))) ->
  (forall j m, nth_error msgs j = Some m -> exchange_succeeds nr m (env j)) /\
  (msgs <> [] -> rpdev (i2c_rpmsg w) = true) /\
  length (wire w') = (length (wire w) + length msgs)%nat /\
  msgs' = msgs.
Proof.
  intros Hlen Hwf Hrun.
  apply (xfer_loop_success_inv nr _ env msgs 0 false w w' msgs' Hrun);
    [lia | exact Hlen | exact Hwf].
Qed.

(** ** The frames of a transfer *)

Lemma request_has_shape (cmd : Z) (m : i2c_msg) (nr : Z) (il : bool)
  (payload : list Z) :
  cmd = I2C_RPMSG_COMMAND_READ \/ cmd = I2C_RPMSG_COMMAND_WRITE ->
  msg_len m <= I2C_RPMSG_MAX_BUF_SIZE ->
  length payload = 16%nat ->
  request_shape nr
    {| pkt_data := request cmd m nr il payload; pkt_len := sizeof_i2c_rpmsg_msg |}.
Proof.
  intros Hcmd Hlen Hpay. unfold request_shape. simpl.
  repeat split; try reflexivity; try assumption.
Qed.

Lemma copy_payload_length (mem : memory) (src len : Z) :
  length (copy_payload mem src len) = 16%nat.
Proof. unfold copy_payload. now rewrite length_map, length_seq. Qed.

Lemma message_call_shape (m : i2c_msg) (nr : Z) (il : bool) (e : exchange)
  (w w' : world) (r : outcome) :
  message_call m nr il e w = (w', r) ->
  wire w' = wire w \/ exists p, wire w' = wire w ++ [p] /\ request_shape nr p.
Proof.
  unfold message_call. rewrite i2c_rpmsg_read_eq, i2c_rpmsg_write_eq. cbv zeta.
  destruct (refused m w) eqn:Href.
  { destruct (is_read m); intros [= <- _]; now left. }
  unfold refused in Href. apply orb_false_iff in Href as [_ Hmax].
  rewrite Z.gtb_ltb in Hmax. apply Z.ltb_ge in Hmax.
  intros Hcall. right.
  destruct (is_read m).
  - exists {| pkt_data := request I2C_RPMSG_COMMAND_READ m nr il (repeat 0 16);
              pkt_len := sizeof_i2c_rpmsg_msg |}.
    split; [|apply request_has_shape; auto using repeat_length].
    destruct (send_ret e <? 0); [now injection Hcall as <- _|].
    destruct (first_accepted _ _ _) as [p|]; [|now injection Hcall as <- _].
    destruct (negb (rmsg_ret_val (pkt_data p) =? 0)); [now injection Hcall as <- _|].
    destruct (negb (rmsg_len (pkt_data p) =? msg_len m));
      now injection Hcall as <- _.
  - exists {| pkt_data := request I2C_RPMSG_COMMAND_WRITE m nr il
                            (copy_payload (ram w) (msg_buf m) (msg_len m));
              pkt_len := sizeof_i2c_rpmsg_msg |}.
    split; [|apply request_has_shape; auto using copy_payload_length].
    destruct (send_ret e <? 0); [now injection Hcall as <- _|].
    destruct (first_accepted _ _ _) as [p|]; now injection Hcall as <- _.
Qed.

Lemma xfer_loop_shape (nr num : Z) (env : nat -> exchange) (msgs : list i2c_msg) :
  forall (i : nat) (il : bool) (w : world),
  exists sent,
    wire (fst (fst (xfer_loop nr num env i il msgs w))) = wire w ++ sent /\
    Forall (request_shape nr) sent.
Proof.
  induction msgs as [|m rest IH]; intros i il w.
  - exists []. simpl. now rewrite app_nil_r.
  - rewrite xfer_loop_cons. cbv zeta.
    destruct (message_call m nr _ (env i) (expecting w nr m)) as [w1 r1] eqn:Hcall.
    assert (Hstep : exists s1, wire w1 = wire w ++ s1 /\ Forall (request_shape nr) s1).
    { apply message_call_shape in Hcall as [Hw1 | (p & Hw1 & Hp)].
      - exists []. now rewrite app_nil_r.
      - exists [p]. split; [exact Hw1 | now constructor]. }
    destruct Hstep as (s1 & Hw1 & Hs1).
    destruct r1 as [z|]; [|now exists s1].
    destruct (z <? 0); [now exists s1|].
    destruct (IH (S i) (if Z.of_nat i =? num - 1 then true else il) w1)
      as (s2 & Hw2 & Hs2).
    destruct (xfer_loop nr num env (S i) _ rest w1) as [[w2 rest'] r'].
    exists (s1 ++ s2). simpl in *. split.
    + now rewrite Hw2, Hw1, app_assoc.
    + now apply Forall_app.
Qed.

(** X3: every frame a transfer hands to [rpmsg_send] is a request of 34
    bytes with category 9, version 1.0, priority 1, command read or write,
    return code 0, the adapter number modulo 256 as bus id, a length field
    of at most 16 and a data array of 16 bytes. *)
Theorem every_frame_sent_is_a_bounded_request (nr : Z) (msgs : list i2c_msg)
  (env : nat -> exchange) (w : world) :
  exists sent,
    wire (fst (fst (i2c_rpbus_xfer nr msgs env w))) = wire w ++ sent /\
    Forall (request_shape nr) sent.
Proof. apply xfer_loop_shape. Qed.

(** X4: a remote side that answers a request by echoing its bus id, address
    and length in a response with return code 0 always completes the
    exchange: if that echo is the first packet to arrive, the read returns
    the message's length and the write returns 0, whatever the adapter
    number, the command and the payload of the echoed frame. *)
Theorem echoed_request_completes_the_exchange (m : i2c_msg) (nr : Z)
  (il : bool) (e : exchange) (w : world) (cmd : Z) (payload data : list Z)
  (later : list packet) :
  refused m w = false ->
  0 <= send_ret e ->
  inbox e
  = as_response {| pkt_data := request cmd m nr il payload;
                   pkt_len := sizeof_i2c_rpmsg_msg |} 0 data :: later ->
  snd (message_call m nr il e (expecting w nr m))
  = Ret (if is_read m then msg_len m else 0).
Proof.
  intros Href Hsend Hin.
  assert (Hs : (send_ret e <? 0) = false) by (apply Z.ltb_ge; lia).
  pose proof Href as Hmax. unfold refused in Hmax.
  apply orb_false_iff in Hmax as [_ Hmax].
  rewrite Z.gtb_ltb in Hmax. apply Z.ltb_ge in Hmax.
  unfold message_call. rewrite i2c_rpmsg_read_eq, i2c_rpmsg_write_eq. cbv zeta.
  replace (refused m (expecting w nr m)) with false by (symmetry; exact Href).
  rewrite Hs, Hin. simpl info_bus_id. simpl info_addr.
  unfold first_accepted. cbn [find].
  replace (accepts (u8 nr) (msg_addr m) _) with true.
  - simpl. rewrite Z.eqb_refl. now destruct (is_read m).
  - symmetry. unfold accepts. simpl. rewrite !Z.eqb_refl. simpl.
    now apply Z.leb_le.
Qed.

(** ** Payloads *)

Lemma copy_payload_nth (mem : memory) (src len : Z) (k : nat) :
  (k < 16)%nat ->
  nth k (copy_payload mem src len) 0
  = if Z.of_nat k <? len then mem (src + Z.of_nat k) else 0.
Proof.
  intros Hk. unfold copy_payload.
  do 16 (destruct k as [|k]; [reflexivity|]). lia.
Qed.

(** X5: the frame of a write that is not refused carries the message's
    length and, in its 16-byte data array, the first [len] bytes of the
    caller's buffer followed by zeros; the caller's memory is only read. *)
Theorem write_frame_carries_the_buffer (m : i2c_msg) (nr : Z) (il : bool)
  (e : exchange) (w : world) :
  refused m w = false ->
  exists p,
    wire (fst (i2c_rpmsg_write m nr il e w)) = wire w ++ [p] /\
    hdr_cmd (rmsg_header (pkt_data p)) = I2C_RPMSG_COMMAND_WRITE /\
    rmsg_len (pkt_data p) = msg_len m /\
    length (rmsg_buf (pkt_data p)) = 16%nat /\
    forall k, (k < 16)%nat ->
      nth k (rmsg_buf (pkt_data p)) 0
      = if Z.of_nat k <? msg_len m then ram w (msg_buf m + Z.of_nat k) else 0.
Proof.
  intros Href. rewrite i2c_rpmsg_write_eq, Href. cbv zeta.
  exists {| pkt_data := request I2C_RPMSG_COMMAND_WRITE m nr il
                          (copy_payload (ram w) (msg_buf m) (msg_len m));
            pkt_len := sizeof_i2c_rpmsg_msg |}.
  split.
  - destruct (send_ret e <? 0); [reflexivity|].
    now destruct (first_accepted _ _ _).
  - cbn [pkt_data request rmsg_header hdr_cmd rmsg_len rmsg_buf].
    split; [reflexivity|]. split; [reflexivity|].
    split; [apply copy_payload_length|]. intros k Hk.
    now apply copy_payload_nth.
Qed.

Lemma memcpy_inside (mem : memory) (dst : Z) (src : list Z) (n k : Z) :
  0 <= k < n -> memcpy mem dst src n (dst + k) = nth (Z.to_nat k) src 0.
Proof.
  intros Hk. unfold memcpy.
  replace ((dst <=? dst + k) && (dst + k <? dst + n)) with true.
  - f_equal. f_equal. lia.
  - symmetry. apply andb_true_intro. split; [apply Z.leb_le | apply Z.ltb_lt]; lia.
Qed.

Lemma i2c_rpmsg_read_success (m : i2c_msg) (nr : Z) (il : bool)
  (e : exchange) (w : world) (p : packet) :
  refused m w = false ->
  0 <= send_ret e ->
  first_accepted (info_bus_id (i2c_rpmsg w)) (info_addr (i2c_rpmsg w)) (inbox e)
  = Some p ->
  rmsg_ret_val (pkt_data p) = 0 ->
  rmsg_len (pkt_data p) = msg_len m ->
  snd (i2c_rpmsg_read m nr il e w) = Ret (msg_len m) /\
  ram (fst (i2c_rpmsg_read m nr il e w))
  = memcpy (ram w) (msg_buf m) (rmsg_buf (pkt_data p)) (msg_len m) /\
  msg (i2c_rpmsg (fst (i2c_rpmsg_read m nr il e w))) = Some (pkt_data p) /\
  rpdev (i2c_rpmsg (fst (i2c_rpmsg_read m nr il e w))) = rpdev (i2c_rpmsg w).
Proof.
  intros Href Hsend Hp Hrv Hlen.
  assert (Hs : (send_ret e <? 0) = false) by (apply Z.ltb_ge; lia).
  rewrite i2c_rpmsg_read_eq, Href. cbv zeta.
  rewrite Hs, Hp, Hrv, Hlen, !Z.eqb_refl. simpl. now repeat split.
Qed.

(** X6: a read whose first accepted response has return code 0 and the
    requested length returns that length, leaves the response stored in
    the driver and puts byte [k] of the response's data at offset [k] of
    the caller's buffer for every [k] below the length; no other byte of
    the caller's memory changes. *)
Theorem read_delivers_the_response_bytes (m : i2c_msg) (nr : Z) (il : bool)
  (e : exchange) (w : world) (p : packet) :
  refused m w = false ->
  0 <= send_ret e ->
  first_accepted (info_bus_id (i2c_rpmsg w)) (info_addr (i2c_rpmsg w)) (inbox e)
  = Some p ->
  rmsg_ret_val (pkt_data p) = 0 ->
  rmsg_len (pkt_data p) = msg_len m ->
  snd (i2c_rpmsg_read m nr il e w) = Ret (msg_len m) /\
  msg (i2c_rpmsg (fst (i2c_rpmsg_read m nr il e w))) = Some (pkt_data p) /\
  (forall k, 0 <= k < msg_len m ->
     ram (fst (i2c_rpmsg_read m nr il e w)) (msg_buf m + k)
     = nth (Z.to_nat k) (rmsg_buf (pkt_data p)) 0) /\
  (forall a, ~ (msg_buf m <= a < msg_buf m + msg_len m) ->
     ram (fst (i2c_rpmsg_read m nr il e w)) a = ram w a).
Proof.
  intros Href Hsend Hp Hrv Hlen.
  destruct (i2c_rpmsg_read_success m nr il e w p Href Hsend Hp Hrv Hlen)
    as (Hret & Hram & Hmsg & _).
  split; [exact Hret|]. split; [exact Hmsg|]. rewrite Hram. split.
  - intros k Hk. now apply memcpy_inside.
  - intros a Ha. unfold memcpy.
    destruct ((msg_buf m <=? a) && (a <? msg_buf m + msg_len m)) eqn:Hin;
      [|reflexivity].
    apply andb_prop in Hin as [H1 H2]. apply Z.leb_le in H1.
    apply Z.ltb_lt in H2. lia.
Qed.

(** X7: a transfer made of a write and a read of the same length n, whose
    read is answered with the data array the write frame carried, returns
    2 and leaves in the read buffer the n bytes the write buffer held when
    the transfer began. *)
Theorem written_bytes_echoed_back_reach_the_read_buffer (nr : Z)
  (mw mr : i2c_msg) (env : nat -> exchange) (w : world) (p0 p1 : packet) :
  rpdev (i2c_rpmsg w) = true ->
  is_read mw = false ->
  is_read mr = true ->
  0 <= msg_len mw <= I2C_RPMSG_MAX_BUF_SIZE ->
  msg_len mr = msg_len mw ->
  0 <= send_ret (env 0%nat) ->
  first_accepted (u8 nr) (msg_addr mw) (inbox (env 0%nat)) = Some p0 ->
  rmsg_ret_val (pkt_data p0) = 0 ->
  0 <= send_ret (env 1%nat) ->
  first_accepted (u8 nr) (msg_addr mr) (inbox (env 1%nat)) = Some p1 ->
  rmsg_ret_val (pkt_data p1) = 0 ->
  rmsg_len (pkt_data p1) = msg_len mr ->
  rmsg_buf (pkt_data p1) = copy_payload (ram w) (msg_buf mw) (msg_len mw) ->
  snd (i2c_rpbus_xfer nr [mw; mr] env w) = Ret 2 /\
  forall k, 0 <= k < msg_len mw ->
    ram (fst (fst (i2c_rpbus_xfer nr [mw; mr] env w))) (msg_buf mr + k)
    = ram w (msg_buf mw + k).
Proof.
  intros Hdev Hw Hr Hn Heq Hs0 Hp0 Hrv0 Hs1 Hp1 Hrv1 Hl1 Hbuf.
  unfold i2c_rpbus_xfer. rewrite xfer_loop_cons. cbv zeta.
  destruct (message_call mw nr _ (env 0%nat) (expecting w nr mw))
    as [w1 r1] eqn:Hcall.
  assert (Hok0 : exchange_succeeds nr mw (env 0%nat)).
  { split; [exact Hn|]. split; [exact Hs0|]. exists p0.
    split; [exact Hp0|]. split; [exact Hrv0|]. rewrite Hw. discriminate. }
  destruct (message_call_succeeds mw nr
              (if Z.of_nat 0 =? Z.of_nat (length [mw; mr]) - 1 then true else false)
              (env 0%nat) w Hdev Hok0) as (w1' & Hcall' & Hdev1 & _).
  rewrite Hcall in Hcall'. injection Hcall' as <- ->.
  apply message_call_ram in Hcall as [Hram1 _]. specialize (Hram1 Hw).
  simpl in Hram1. rewrite Hw. cbn [Z.ltb Z.compare].
  rewrite xfer_loop_cons. cbv zeta. unfold message_call. rewrite Hr.
  assert (Href : refused mr (expecting w1 nr mr) = false).
  { unfold refused. simpl. rewrite Hdev1. simpl. rewrite Z.gtb_ltb.
    apply Z.ltb_ge. lia. }
  destruct (i2c_rpmsg_read_success mr nr
              (if Z.of_nat 1 =? Z.of_nat (length [mw; mr]) - 1 then true
               else if Z.of_nat 0 =? Z.of_nat (length [mw; mr]) - 1 then true
                    else false)
              (env 1%nat) (expecting w1 nr mr) p1 Href Hs1 Hp1 Hrv1 Hl1)
    as (Hret & Hram & _).
  destruct (i2c_rpmsg_read mr nr _ (env 1%nat) (expecting w1 nr mr)) as [w2 r2].
  simpl in Hret, Hram. subst r2.
  replace (msg_len mr <? 0) with false by (symmetry; apply Z.ltb_ge; lia).
  simpl. split; [reflexivity|].
  intros k Hk. rewrite Hram, Hram1, Heq, memcpy_inside by lia.
  rewrite Hbuf, copy_payload_nth.
  - rewrite Z2Nat.id by lia.
    replace (k <? msg_len mw) with true by (symmetry; apply Z.ltb_lt; lia).
    reflexivity.
  - unfold I2C_RPMSG_MAX_BUF_SIZE in Hn. lia.
Qed.

(** ** Stale completions *)

(** X8: what a read or a write returns, puts on the wire and leaves in the
    caller's memory does not depend on the completion counter nor on the
    response pointer it finds on entry, because it clears the completion
    before the exchange; [rpmsg_xfer] on its own does depend on them: with
    a completion already signalled and a response stored, it returns by
    that stale response's return code whatever arrives. *)
Theorem stale_completion_cannot_complete_an_operation (m : i2c_msg) (nr : Z)
  (il : bool) (e : exchange) (w : world) (n : nat)
  (stale : option i2c_rpmsg_msg) :
  let w0 := set_info w (set_msg (set_cmd_complete (i2c_rpmsg w) n) stale) in
  (snd (message_call m nr il e w0) = snd (message_call m nr il e w) /\
   wire (fst (message_call m nr il e w0)) = wire (fst (message_call m nr il e w)) /\
   ram (fst (message_call m nr il e w0)) = ram (fst (message_call m nr il e w))) /\
  (forall rmsg old,
      0 <= send_ret e ->
      snd (rpmsg_xfer rmsg e
             (set_info w (set_msg (set_cmd_complete (i2c_rpmsg w) (S n))
                            (Some old))))
      = Ret (if negb (rmsg_ret_val old =? 0) then - rmsg_ret_val old else 0)).
Proof.
  cbv zeta. split.
  - unfold message_call.
    rewrite !i2c_rpmsg_read_eq, !i2c_rpmsg_write_eq. cbv zeta.
    change (refused m (set_info w (set_msg (set_cmd_complete (i2c_rpmsg w) n) stale)))
      with (refused m w).
    simpl info_bus_id. simpl info_addr.
    destruct (is_read m); destruct (refused m w); try (now repeat split);
      destruct (send_ret e <? 0); try (now repeat split);
      destruct (first_accepted _ _ _) as [p|]; try (now repeat split).
  - intros rmsg old Hsend. unfold rpmsg_xfer, rpmsg_send.
    replace (send_ret e <? 0) with false by (symmetry; apply Z.ltb_ge; lia).
    destruct (inbox e); simpl; now destruct (rmsg_ret_val old =? 0).
Qed.

(** ** A signalled completion has a response behind it *)

Lemma i2c_rpmsg_cb_backed (i : i2c_rpmsg_info) (data : i2c_rpmsg_msg) (len : Z) :
  completion_backed i -> completion_backed (fst (i2c_rpmsg_cb i data len)).
Proof.
  unfold i2c_rpmsg_cb, completion_backed. intros Hi.
  destruct (negb _); [exact Hi|]. destruct (_ || _); [exact Hi|].
  destruct (_ >? _); [exact Hi|]. simpl. discriminate.
Qed.

Lemma wait_backed (arriving : list packet) :
  forall i : i2c_rpmsg_info,
    completion_backed i ->
    completion_backed (fst (wait_for_completion_timeout i arriving)) /\
    (snd (wait_for_completion_timeout i arriving) <> 0 ->
     msg (fst (wait_for_completion_timeout i arriving)) <> None).
Proof.
  induction arriving as [|p later IH]; intros i Hi; simpl;
    destruct (cmd_complete i) as [|n] eqn:Hc.
  - simpl. split; [exact Hi | easy].
  - simpl. unfold completion_backed in *. rewrite Hc in Hi. simpl.
    split; intros _; now apply Hi.
  - apply IH. now apply i2c_rpmsg_cb_backed.
  - simpl. unfold completion_backed in *. rewrite Hc in Hi. simpl.
    split; intros _; now apply Hi.
Qed.

Lemma message_call_backed (m : i2c_msg) (nr : Z) (il : bool) (e : exchange)
  (w : world) :
  completion_backed (i2c_rpmsg w) ->
  completion_backed (i2c_rpmsg (fst (message_call m nr il e w))).
Proof.
  intros Hw. unfold message_call.
  rewrite i2c_rpmsg_read_eq, i2c_rpmsg_write_eq. cbv zeta.
  assert (H0 : forall i, cmd_complete i = O -> completion_backed i)
    by (unfold completion_backed; intros i Hi; now rewrite Hi).
  destruct (is_read m); destruct (refused m w); try exact Hw;
    destruct (send_ret e <? 0); try (now apply H0);
    destruct (first_accepted _ _ _) as [p|]; try (now apply H0).
  destruct (negb (rmsg_ret_val (pkt_data p) =? 0)); try (now apply H0).
  destruct (negb (rmsg_len (pkt_data p) =? msg_len m)); now apply H0.
Qed.

Lemma xfer_loop_backed (nr num : Z) (env : nat -> exchange) (msgs : list i2c_msg) :
  forall (i : nat) (il : bool) (w : world),
    completion_backed (i2c_rpmsg w) ->
    completion_backed (i2c_rpmsg (fst (fst (xfer_loop nr num env i il msgs w)))).
Proof.
  induction msgs as [|m rest IH]; intros i il w Hw; [exact Hw|].
  rewrite xfer_loop_cons. cbv zeta.
  pose proof (message_call_backed m nr
                (if Z.of_nat i =? num - 1 then true else il) (env i)
                (expecting w nr m) Hw) as H1.
  destruct (message_call m nr _ (env i) (expecting w nr m)) as [w1 r1].
  simpl in H1. destruct r1 as [z|]; [|exact H1].
  destruct (z <? 0); [exact H1|].
  specialize (IH (S i) (if Z.of_nat i =? num - 1 then true else il) w1 H1).
  now destruct (xfer_loop nr num env (S i) _ rest w1) as [[w2 rest'] r'].
Qed.

(** X9: "a signalled completion has a stored response behind it" holds of
    the zero-initialised driver state and is kept by the callback, by
    probe and remove, by [rpmsg_xfer] and by a whole transfer; in a state
    where it holds [rpmsg_xfer] never dereferences a NULL response, and in
    a state where it fails (completion signalled, no response stored) an
    accepted send is followed by that NULL dereference. *)
Theorem signalled_completion_is_backed_by_a_response :
  completion_backed i2c_rpmsg_static /\
  (forall i data len,
      completion_backed i -> completion_backed (fst (i2c_rpmsg_cb i data len))) /\
  (forall dev i,
      completion_backed i -> completion_backed (fst (i2c_rpmsg_probe dev i))) /\
  (forall i, completion_backed i -> completion_backed (i2c_rpmsg_remove i)) /\
  (forall rmsg e w,
      completion_backed (i2c_rpmsg w) ->
      snd (rpmsg_xfer rmsg e w) <> Oops /\
      completion_backed (i2c_rpmsg (fst (rpmsg_xfer rmsg e w)))) /\
  (forall nr msgs env w,
      completion_backed (i2c_rpmsg w) ->
      completion_backed (i2c_rpmsg (fst (fst (i2c_rpbus_xfer nr msgs env w))))) /\
  (forall rmsg e w,
      0 <= send_ret e ->
      cmd_complete (i2c_rpmsg w) <> O ->
      msg (i2c_rpmsg w) = None ->
      snd (rpmsg_xfer rmsg e w) = Oops).
Proof.
  split; [easy|]. split; [exact i2c_rpmsg_cb_backed|].
  split; [|split; [|split; [|split]]].
  - intros dev i Hi. unfold i2c_rpmsg_probe. cbv zeta.
    destruct (negb dev); [exact Hi|]. simpl. unfold completion_backed. easy.
  - intros i Hi. exact Hi.
  - intros rmsg e w Hw. unfold rpmsg_xfer, rpmsg_send.
    destruct (send_ret e <? 0); [split; [discriminate | exact Hw]|].
    destruct (wait_backed (inbox e) (i2c_rpmsg w) Hw) as [Hb Hm].
    simpl i2c_rpmsg.
    destruct (wait_for_completion_timeout (i2c_rpmsg w) (inbox e)) as [i2 ret].
    simpl in Hb, Hm.
    destruct (ret =? 0) eqn:Hret; [split; [discriminate | exact Hb]|].
    apply Z.eqb_neq in Hret. specialize (Hm Hret).
    destruct (msg i2) as [resp|]; [|easy].
    destruct (negb (rmsg_ret_val resp =? 0)); split; (discriminate || exact Hb).
  - intros nr msgs env w Hw. now apply xfer_loop_backed.
  - intros rmsg e w Hsend Hc Hm. unfold rpmsg_xfer, rpmsg_send.
    replace (send_ret e <? 0) with false by (symmetry; apply Z.ltb_ge; lia).
    simpl i2c_rpmsg.
    destruct (cmd_complete (i2c_rpmsg w)) as [|n] eqn:Hn; [easy|].
    destruct (inbox e); simpl; rewrite Hn; simpl; now rewrite Hm.
Qed.

(** ** Send failures *)

(** X10: when message k of a transfer is reached and [rpmsg_send] rejects
    its frame with a negative code, the transfer returns that very code;
    the frame was handed over once (nothing is retried) and the driver did
    not wait: the stored response is the one it had. *)
Theorem send_failure_is_returned_unchanged (nr : Z) (pre : list i2c_msg)
  (m : i2c_msg) (post : list i2c_msg) (env : nat -> exchange)
  (w wk : world) (pre' : list i2c_msg) :
  let msgs := pre ++ m :: post in
  let N := Z.of_nat (length msgs) in
  let k := length pre in
  xfer_loop nr N env 0 false pre w = (wk, pre', Ret N) ->
  refused m wk = false ->
  send_ret (env k) < 0 ->
  snd (i2c_rpbus_xfer nr msgs env w) = Ret (send_ret (env k)) /\
  (exists p, wire (fst (fst (i2c_rpbus_xfer nr msgs env w))) = wire wk ++ [p] /\
             frame_of nr m (Z.of_nat k =? N - 1) p) /\
  msg (i2c_rpmsg (fst (fst (i2c_rpbus_xfer nr msgs env w)))) = msg (i2c_rpmsg wk).
Proof.
  intros msgs N k Hpre Href Hsend.
  assert (Hs : (send_ret (env k) <? 0) = true) by (apply Z.ltb_lt; lia).
  assert (Hcall : exists w',
             message_call m nr (Z.of_nat k =? N - 1) (env k) (expecting wk nr m)
             = (w', Ret (send_ret (env k))) /\
             (exists p, wire w' = wire wk ++ [p] /\
                        frame_of nr m (Z.of_nat k =? N - 1) p) /\
             msg (i2c_rpmsg w') = msg (i2c_rpmsg wk)).
  { unfold message_call, frame_of.
    rewrite i2c_rpmsg_read_eq, i2c_rpmsg_write_eq. cbv zeta.
    replace (refused m (expecting wk nr m)) with false by (symmetry; exact Href).
    rewrite Hs.
    destruct (is_read m); eexists; (split; [reflexivity|]);
      (split; [eexists; split; [reflexivity | eexists; reflexivity]
              | reflexivity]). }
  destruct Hcall as (w' & Hcall & Hwire & Hmsg).
  pose proof (xfer_loop_abort nr env pre m post w wk w' pre'
                (send_ret (env k)) Hpre Hcall Hsend) as Hrun.
  fold msgs in Hrun. rewrite Hrun. now repeat split.
Qed.

(** ** Binding and unbinding *)

Lemma xfer_unbound (nr : Z) (m : i2c_msg) (rest : list i2c_msg)
  (env : nat -> exchange) (w : world) :
  rpdev (i2c_rpmsg w) = false ->
  i2c_rpbus_xfer nr (m :: rest) env w
  = (expecting w nr m, m :: rest, Ret (- EINVAL)).
Proof.
  pose proof EINVAL_pos.
  intros Hdev. unfold i2c_rpbus_xfer. rewrite xfer_loop_cons. cbv zeta.
  unfold message_call. rewrite i2c_rpmsg_read_eq, i2c_rpmsg_write_eq.
  unfold refused. simpl rpdev. rewrite Hdev. cbn [negb orb].
  assert (Hlt : (- EINVAL <? 0) = true) by (apply Z.ltb_lt; lia).
  destruct (is_read m); cbn beta iota; rewrite Hlt; reflexivity.
Qed.

(** X11: before the channel is bound (the zero-initialised state) and after
    [i2c_rpmsg_remove], a transfer of at least one message returns
    [-EINVAL] without handing any frame to [rpmsg_send] and without
    touching the messages or the caller's memory; all it changes is the
    expected bus id and address, set from the first message. *)
Theorem transfer_without_channel_is_refused (nr : Z) (m : i2c_msg)
  (rest : list i2c_msg) (env : nat -> exchange) (w : world) :
  let removed := set_info w (i2c_rpmsg_remove (i2c_rpmsg w)) in
  let fresh := set_info w i2c_rpmsg_static in
  i2c_rpbus_xfer nr (m :: rest) env removed
  = (expecting removed nr m, m :: rest, Ret (- EINVAL)) /\
  i2c_rpbus_xfer nr (m :: rest) env fresh
  = (expecting fresh nr m, m :: rest, Ret (- EINVAL)) /\
  wire (expecting removed nr m) = wire w /\
  ram (expecting removed nr m) = ram w /\
  - EINVAL < 0.
Proof.
  pose proof EINVAL_pos. cbv zeta.
  split; [now apply xfer_unbound|]. split; [now apply xfer_unbound|].
  repeat split. lia.
Qed.

(** X12: [i2c_rpmsg_probe] with a NULL device returns [-EINVAL] and leaves
    the driver state as it was; with a device it returns 0, and from then
    on, whatever the state was before (unbound, completions left
    signalled), a transfer all of whose exchanges go through returns the
    number of its messages. *)
Theorem probe_binds_the_channel (i : i2c_rpmsg_info) (nr : Z)
  (msgs : list i2c_msg) (env : nat -> exchange) (w : world) :
  i2c_rpmsg_probe false i = (i, - EINVAL) /\
  snd (i2c_rpmsg_probe true i) = 0 /\
  ((forall j m, nth_error msgs j = Some m -> exchange_succeeds nr m (env j)) ->
   snd (i2c_rpbus_xfer nr msgs env (set_info w (fst (i2c_rpmsg_probe true i))))
   = Ret (Z.of_nat (length msgs))).
Proof.
  split; [reflexivity|]. split; [reflexivity|]. intros Hall.
  destruct (xfer_loop_succeeds nr (Z.of_nat (length msgs)) env msgs 0 false
              (set_info w (fst (i2c_rpmsg_probe true i))) eq_refl Hall)
    as (w' & Hrun & _).
  unfold i2c_rpbus_xfer. now rewrite Hrun.
Qed.

(** ** Packets reaching the callback in a row *)

Lemma last_default_irrelevant {A : Type} (l : list A) :
  forall a d d' : A, last (a :: l) d = last (a :: l) d'.
Proof.
  induction l as [|b l IH]; intros a d d'; [reflexivity|].
  change (last (b :: l) d = last (b :: l) d'). apply IH.
Qed.

Lemma last_cons_default {A : Type} (l : list A) (a d : A) :
  last (a :: l) d = last l a.
Proof.
  destruct l as [|b l]; [reflexivity|].
  change (last (b :: l) d = last (b :: l) a). apply last_default_irrelevant.
Qed.

(** X13: however many packets reach the callback, it never changes the
    channel binding nor the expected bus id and address; the completion
    counter grows by one for each packet that passes the three tests (two
    matching responses signal it twice) and the stored response is the
    last such packet, or the previous one if there was none. *)
Theorem callback_counts_accepted_packets (arriving : list packet) :
  forall i : i2c_rpmsg_info,
    let passing := filter (accepts (info_bus_id i) (info_addr i)) arriving in
    rpdev (deliver i arriving) = rpdev i /\
    info_bus_id (deliver i arriving) = info_bus_id i /\
    info_addr (deliver i arriving) = info_addr i /\
    cmd_complete (deliver i arriving) = (cmd_complete i + length passing)%nat /\
    msg (deliver i arriving)
    = last (map (fun p => Some (pkt_data p)) passing) (msg i).
Proof.
  induction arriving as [|p later IH]; intros i; cbv zeta.
  - simpl. repeat split. lia.
  - change (deliver i (p :: later))
      with (deliver (fst (i2c_rpmsg_cb i (pkt_data p) (pkt_len p))) later).
    cbn [filter].
    destruct (accepts (info_bus_id i) (info_addr i) p) eqn:Hp.
    + rewrite (i2c_rpmsg_cb_accepts _ _ Hp). cbn [fst].
      destruct (IH (complete (set_msg i (Some (pkt_data p)))))
        as (H1 & H2 & H3 & H4 & H5).
      cbn [complete set_msg set_cmd_complete rpdev info_bus_id info_addr
           cmd_complete msg] in H1, H2, H3, H4, H5.
      rewrite H1, H2, H3, H4, H5. cbn [map length].
      rewrite last_cons_default. repeat split. lia.
    + rewrite (i2c_rpmsg_cb_rejects _ _ Hp). cbn [fst]. apply IH.
Qed.

(** ** Adapter numbers above 255 *)

Lemma u8_add_256 (nr c : Z) : u8 (nr + 256 * c) = u8 nr.
Proof.
  unfold u8. change (2 ^ 8) with 256. rewrite Z.mul_comm.
  apply Z_mod_plus_full.
Qed.

Lemma xfer_loop_bus_alias (nr c num : Z) (env : nat -> exchange)
  (msgs : list i2c_msg) :
  forall (i : nat) (il : bool) (w : world),
    xfer_loop (nr + 256 * c) num env i il msgs w
    = xfer_loop nr num env i il msgs w.
Proof.
  induction msgs as [|m rest IH]; intros i il w; [reflexivity|].
  cbn [xfer_loop]. rewrite u8_add_256.
  assert (Hrd : forall il0 e w0,
             i2c_rpmsg_read m (nr + 256 * c) il0 e w0
             = i2c_rpmsg_read m nr il0 e w0).
  { intros il0 e w0. unfold i2c_rpmsg_read. now rewrite u8_add_256. }
  assert (Hwr : forall il0 e w0,
             i2c_rpmsg_write m (nr + 256 * c) il0 e w0
             = i2c_rpmsg_write m nr il0 e w0).
  { intros il0 e w0. unfold i2c_rpmsg_write. now rewrite u8_add_256. }
  rewrite Hrd, Hwr.
  destruct (negb (Z.land (msg_flags m) I2C_M_RD =? 0)).
  - destruct (i2c_rpmsg_read m nr _ (env i) _) as [w1 [z|]]; [|reflexivity].
    destruct (z <? 0); [reflexivity|]. now rewrite IH.
  - destruct (i2c_rpmsg_write m nr _ (env i) _) as [w1 [z|]]; [|reflexivity].
    destruct (z <? 0); [reflexivity|]. now rewrite IH.
Qed.

(** X14: the bus id travels as one byte, so two adapter numbers that are
    equal modulo 256 are the same bus for the driver: a transfer on one
    puts the same frames on the wire, accepts the same responses and
    returns the same result as on the other. *)
Theorem adapter_numbers_alias_modulo_256 (nr c : Z) (msgs : list i2c_msg)
  (env : nat -> exchange) (w : world) :
  i2c_rpbus_xfer (nr + 256 * c) msgs env w = i2c_rpbus_xfer nr msgs env w.
Proof. apply xfer_loop_bus_alias. Qed.

(** ** What the driver goes on expecting *)

Lemma message_call_expected (m : i2c_msg) (nr : Z) (il : bool) (e : exchange)
  (w : world) :
  info_bus_id (i2c_rpmsg (fst (message_call m nr il e w)))
  = info_bus_id (i2c_rpmsg w) /\
  info_addr (i2c_rpmsg (fst (message_call m nr il e w)))
  = info_addr (i2c_rpmsg w).
Proof.
  unfold message_call. rewrite i2c_rpmsg_read_eq, i2c_rpmsg_write_eq. cbv zeta.
  destruct (is_read m); destruct (refused m w); try (now split);
    destruct (send_ret e <? 0); try (now split);
    destruct (first_accepted _ _ _) as [p|]; try (now split).
  destruct (negb (rmsg_ret_val (pkt_data p) =? 0)); try (now split).
  now destruct (negb (rmsg_len (pkt_data p) =? msg_len m)).
Qed.

(** The message a run of the loop reached last: the iterations before it
    fell through, and either it is the last of the list or the loop run up
    to and including it returns a negative value.  When the loop returns,
    the driver expects that message's address. *)
Lemma xfer_loop_reached (nr num : Z) (env : nat -> exchange)
  (msgs : list i2c_msg) :
  forall (i : nat) (il : bool) (w w' : world) (msgs' : list i2c_msg)
         (r : outcome),
    msgs <> [] ->
    0 <= num ->
    xfer_loop nr num env i il msgs w = (w', msgs', r) ->
    exists pre m post wk pre',
      msgs = pre ++ m :: post /\
      xfer_loop nr num env i il pre w = (wk, pre', Ret num) /\
      (post = [] \/
       exists e, e < 0 /\
                 snd (xfer_loop nr num env i il (pre ++ [m]) w) = Ret e) /\
      (r = Ret num -> post = []) /\
      info_bus_id (i2c_rpmsg w') = u8 nr /\
      info_addr (i2c_rpmsg w') = msg_addr m.
Proof.
  induction msgs as [|m rest IH]; intros i il w w' msgs' r Hne Hnum Hrun;
    [easy|].
  rewrite xfer_loop_cons in Hrun. cbv zeta in Hrun.
  pose proof (message_call_expected m nr
                (if Z.of_nat i =? num - 1 then true else il) (env i)
                (expecting w nr m)) as [Hb Ha].
  destruct (message_call m nr _ (env i) (expecting w nr m)) as [w1 r1] eqn:Hcall.
  simpl in Hb, Ha.
  destruct (message_call_wire _ _ _ _ _ _ _ Hcall) as (z & -> & _).
  destruct (z <? 0) eqn:Hz.
  - injection Hrun as <- _ <-.
    exists [], m, rest, w, []. split; [reflexivity|]. split; [reflexivity|].
    split; [|split; [|now split]].
    + right. exists z. split; [now apply Z.ltb_lt|].
      simpl app. rewrite xfer_loop_cons. cbv zeta. now rewrite Hcall, Hz.
    + intros [= ->]. apply Z.ltb_lt in Hz. lia.
  - destruct rest as [|m2 rest2].
    + simpl in Hrun. injection Hrun as <- _ <-.
      exists [], m, [], w, []. split; [reflexivity|]. split; [reflexivity|].
      split; [now left|]. now repeat split.
    + destruct (xfer_loop nr num env (S i) _ (m2 :: rest2) w1)
        as [[w2 rest'] r'] eqn:Hrest.
      injection Hrun as <- _ <-.
      apply IH in Hrest
        as (pre & m' & post & wk & pre' & Hsplit & Hpre & Hlast & Hret & Hb2 & Ha2);
        [|easy|exact Hnum].
      exists (m :: pre), m', post, wk,
        ((if is_read m then set_msg_len m (u16 z) else m) :: pre').
      split; [simpl; now rewrite Hsplit|]. split.
      { rewrite xfer_loop_cons. cbv zeta. now rewrite Hcall, Hz, Hpre. }
      split; [|now repeat split].
      destruct Hlast as [-> | (e & He & Hrun')]; [now left|].
      right. exists e. split; [exact He|].
      simpl app. rewrite xfer_loop_cons. cbv zeta. rewrite Hcall, Hz.
      destruct (xfer_loop nr num env (S i) _ (pre ++ [m']) w1) as [[w3 l3] r3].
      exact Hrun'.
Qed.

(** X15: nothing is cleared when a transfer returns.  After a transfer of
    at least one message the driver still expects the adapter's bus id and
    the address of the message [m] the transfer reached last: the messages
    before [m] fell through, and [m] is the last of the list or the one at
    which the transfer stopped with a negative value (it is the last of the
    list whenever the transfer returned N).  A packet arriving after the
    transfer is therefore accepted by the callback exactly when it would
    have been during the exchange of [m]. *)
Theorem expected_address_outlives_the_transfer (nr : Z) (msgs : list i2c_msg)
  (env : nat -> exchange) (w : world) :
  msgs <> [] ->
  let N := Z.of_nat (length msgs) in
  let '(w', _, r) := i2c_rpbus_xfer nr msgs env w in
  exists pre m post wk pre',
    msgs = pre ++ m :: post /\
    xfer_loop nr N env 0 false pre w = (wk, pre', Ret N) /\
    (post = [] \/
     exists e, e < 0 /\ snd (xfer_loop nr N env 0 false (pre ++ [m]) w) = Ret e) /\
    (r = Ret N -> post = []) /\
    forall p, accepts (info_bus_id (i2c_rpmsg w')) (info_addr (i2c_rpmsg w')) p
              = accepts (u8 nr) (msg_addr m) p.
Proof.
  intros Hne N. unfold i2c_rpbus_xfer. fold N.
  destruct (xfer_loop nr N env 0 false msgs w) as [[w' msgs'] r] eqn:Hrun.
  apply xfer_loop_reached in Hrun
    as (pre & m & post & wk & pre' & Hsplit & Hpre & Hlast & Hret & Hb & Ha);
    [|exact Hne|subst N; lia].
  exists pre, m, post, wk, pre'. repeat (split; [assumption|]).
  intros p. now rewrite Hb, Ha.
Qed.

(** ** What goes on the wire of the caller's memory *)

Lemma copy_payload_ext (mem1 mem2 : memory) (src len : Z) :
  (forall k, 0 <= k < len -> mem1 (src + k) = mem2 (src + k)) ->
  copy_payload mem1 src len = copy_payload mem2 src len.
Proof.
  intros Hagree. unfold copy_payload. apply map_ext_in. intros k _.
  destruct (Z.of_nat k <? len) eqn:Hk; [|reflexivity].
  apply Z.ltb_lt in Hk. apply Hagree. lia.
Qed.

(** X16: the only bytes of the caller's memory that reach the remote side
    are the [len] bytes of a write message's buffer: two memories that
    agree on those bytes make a write put the same frames on the wire and
    return the same value, and a read puts the same frames on the wire in
    any two memories (its request carries sixteen zero bytes). *)
Theorem frames_carry_only_the_write_buffer (m : i2c_msg) (nr : Z) (il : bool)
  (e : exchange) (w : world) (other : memory) :
  (forall k, 0 <= k < msg_len m -> ram w (msg_buf m + k) = other (msg_buf m + k)) ->
  wire (fst (i2c_rpmsg_write m nr il e (set_ram w other)))
  = wire (fst (i2c_rpmsg_write m nr il e w)) /\
  snd (i2c_rpmsg_write m nr il e (set_ram w other))
  = snd (i2c_rpmsg_write m nr il e w) /\
  (forall any : memory,
      wire (fst (i2c_rpmsg_read m nr il e (set_ram w any)))
      = wire (fst (i2c_rpmsg_read m nr il e w)) /\
      snd (i2c_rpmsg_read m nr il e (set_ram w any))
      = snd (i2c_rpmsg_read m nr il e w)).
Proof.
  intros Hagree.
  rewrite !i2c_rpmsg_write_eq. cbv zeta.
  change (refused m (set_ram w other)) with (refused m w).
  simpl ram. simpl info_bus_id. simpl info_addr.
  rewrite <- (copy_payload_ext _ _ _ _ Hagree).
  split; [|split].
  - destruct (refused m w); [reflexivity|].
    destruct (send_ret e <? 0); [reflexivity|].
    now destruct (first_accepted _ _ _).
  - destruct (refused m w); [reflexivity|].
    destruct (send_ret e <? 0); [reflexivity|].
    now destruct (first_accepted _ _ _).
  - intros any. rewrite !i2c_rpmsg_read_eq. cbv zeta.
    change (refused m (set_ram w any)) with (refused m w).
    simpl info_bus_id. simpl info_addr.
    destruct (refused m w); [now split|].
    destruct (send_ret e <? 0); [now split|].
    destruct (first_accepted _ _ _) as [p|]; [|now split].
    destruct (negb (rmsg_ret_val (pkt_data p) =? 0)); [now split|].
    now destruct (negb (rmsg_len (pkt_data p) =? msg_len m)).
Qed.

(** ** The advertised limits and the enforced ones *)

(** X17: on a bound channel a read or write is refused before a frame is
    built exactly when the message is longer than the limit the adapter
    advertises for its direction, so a message within [i2c_rpbus_quirks]
    always gets its frame handed to [rpmsg_send]. *)
Theorem advertised_limit_is_the_enforced_limit (m : i2c_msg) (nr : Z)
  (il : bool) (e : exchange) (w : world) :
  rpdev (i2c_rpmsg w) = true ->
  let limit := if is_read m then max_read_len i2c_rpbus_quirks
               else max_write_len i2c_rpbus_quirks in
  (msg_len m <= limit ->
   exists p, wire (fst (message_call m nr il e w)) = wire w ++ [p] /\
             frame_of nr m il p) /\
  (limit < msg_len m -> message_call m nr il e w = (w, Ret (- EINVAL))).
Proof.
  intros Hdev limit.
  assert (Hlimit : limit = I2C_RPMSG_MAX_BUF_SIZE)
    by (subst limit; now destruct (is_read m)).
  rewrite Hlimit. clear limit Hlimit.
  unfold message_call. rewrite i2c_rpmsg_read_eq, i2c_rpmsg_write_eq. cbv zeta.
  unfold refused, frame_of. rewrite Hdev. cbn [negb orb]. split.
  - intros Hle.
    replace (msg_len m >? I2C_RPMSG_MAX_BUF_SIZE) with false
      by (symmetry; rewrite Z.gtb_ltb; apply Z.ltb_ge; lia).
    destruct (is_read m).
    + exists {| pkt_data := request I2C_RPMSG_COMMAND_READ m nr il (repeat 0 16);
                pkt_len := sizeof_i2c_rpmsg_msg |}.
      split; [|eexists; reflexivity].
      destruct (send_ret e <? 0); [reflexivity|].
      destruct (first_accepted _ _ _) as [p|]; [|reflexivity].
      destruct (negb (rmsg_ret_val (pkt_data p) =? 0)); [reflexivity|].
      now destruct (negb (rmsg_len (pkt_data p) =? msg_len m)).
    + exists {| pkt_data := request I2C_RPMSG_COMMAND_WRITE m nr il
                              (copy_payload (ram w) (msg_buf m) (msg_len m));
                pkt_len := sizeof_i2c_rpmsg_msg |}.
      split; [|eexists; reflexivity].
      destruct (send_ret e <? 0); [reflexivity|].
      now destruct (first_accepted _ _ _).
  - intros Hgt.
    replace (msg_len m >? I2C_RPMSG_MAX_BUF_SIZE) with true
      by (symmetry; apply Z.gtb_gt; lia).
    now destruct (is_read m).
Qed.

End Further.

(** * The further properties at the concrete configuration *)

Lemma xfer_count_means_every_exchange_succeeded_witness :
  exchange_succeeds (K := linux) 1 read_0x50 read_ok /\
  rpdev (i2c_rpmsg boot) = true.
Proof.
  edestruct (xfer_count_means_every_exchange_succeeded (K := linux) 1
               [write_0x50; read_0x50] peer_answers boot)
    as (Hall & Hdev & _).
  - intros m [<- | [<- | []]]; simpl; lia.
  - intros [|j] p [<- | []]; unfold ret_val_is_u8; simpl; lia.
  - reflexivity.
  - split; [exact (Hall 1%nat read_0x50 eq_refl) | apply Hdev; discriminate].
Defined.

Lemma echoed_request_completes_the_exchange_witness :
  snd (message_call (K := linux) read_0x50 1 true
         {| send_ret := 0;
            inbox := [as_response
                        {| pkt_data := request I2C_RPMSG_COMMAND_READ read_0x50 1
                                         true (repeat 0 16);
                           pkt_len := sizeof_i2c_rpmsg_msg |} 0 [0x12; 0x34]] |}
         (expecting boot 1 read_0x50))
  = Ret 2.
Proof.
  apply (echoed_request_completes_the_exchange (K := linux) read_0x50 1 true
           _ boot I2C_RPMSG_COMMAND_READ (repeat 0 16) [0x12; 0x34] []).
  - reflexivity.
  - simpl. lia.
  - reflexivity.
Defined.

Lemma write_frame_carries_the_buffer_witness :
  exists p,
    wire (fst (i2c_rpmsg_write (K := linux) write_0x50 1 true write_ok boot))
    = wire boot ++ [p] /\
    hdr_cmd (rmsg_header (pkt_data p)) = I2C_RPMSG_COMMAND_WRITE /\
    rmsg_len (pkt_data p) = 1 /\
    length (rmsg_buf (pkt_data p)) = 16%nat /\
    forall k, (k < 16)%nat ->
      nth k (rmsg_buf (pkt_data p)) 0
      = if Z.of_nat k <? 1 then ram boot (100 + Z.of_nat k) else 0.
Proof.
  apply (write_frame_carries_the_buffer (K := linux) write_0x50 1 true write_ok
           boot).
  reflexivity.
Defined.

Lemma read_delivers_the_response_bytes_witness :
  ram (fst (i2c_rpmsg_read (K := linux) read_0x50 1 true read_ok
              (expecting boot 1 read_0x50))) (200 + 1) = 0x34.
Proof.
  edestruct (read_delivers_the_response_bytes (K := linux) read_0x50 1 true
               read_ok (expecting boot 1 read_0x50))
    as (_ & _ & Hbytes & _).
  - reflexivity.
  - simpl. lia.
  - reflexivity.
  - reflexivity.
  - reflexivity.
  - apply (Hbytes 1). simpl. lia.
Defined.

Lemma written_bytes_echoed_back_reach_the_read_buffer_witness :
  snd (i2c_rpbus_xfer (K := linux) 1 [write_0x50; read1_0x50] peer_echoes boot)
  = Ret 2 /\
  ram (fst (fst (i2c_rpbus_xfer (K := linux) 1 [write_0x50; read1_0x50]
                   peer_echoes boot))) (200 + 0)
  = ram boot (100 + 0).
Proof.
  edestruct (written_bytes_echoed_back_reach_the_read_buffer (K := linux) 1
               write_0x50 read1_0x50 peer_echoes boot)
    as [Hret Hbytes].
  - reflexivity.
  - reflexivity.
  - reflexivity.
  - simpl. unfold I2C_RPMSG_MAX_BUF_SIZE. lia.
  - reflexivity.
  - simpl. lia.
  - reflexivity.
  - reflexivity.
  - simpl. lia.
  - reflexivity.
  - reflexivity.
  - reflexivity.
  - reflexivity.
  - split; [exact Hret|]. apply Hbytes. simpl. lia.
Defined.

Lemma send_failure_is_returned_unchanged_witness :
  snd (i2c_rpbus_xfer (K := linux) 1 [write_0x50; read_0x50; write_0x50]
         peer_rejects_second boot) = Ret (-12).
Proof.
  edestruct (send_failure_is_returned_unchanged (K := linux) 1 [write_0x50]
               read_0x50 [write_0x50] peer_rejects_second boot)
    as (Hret & _).
  - reflexivity.
  - reflexivity.
  - simpl. lia.
  - exact Hret.
Defined.

(** A transfer to the addresses 0x50, 0x51 and 0x52 that stops at the
    second message leaves the driver accepting a response from 0x51 and
    dropping one from 0x52. *)
Lemma expected_address_outlives_the_transfer_witness :
  let i' := i2c_rpmsg (fst (fst (i2c_rpbus_xfer (K := linux) 1
                                   [write_0x50; read_0x51; write_0x52]
                                   peer_fails_0x51 boot))) in
  accepts (info_bus_id i') (info_addr i')
    (reply I2C_RPMSG_COMMAND_READ 1 0x51 0 2 [0x12; 0x34]) = true /\
  accepts (info_bus_id i') (info_addr i')
    (reply I2C_RPMSG_COMMAND_WRITE 1 0x52 0 1 [0xAA]) = false.
Proof.
  pose proof (expected_address_outlives_the_transfer (K := linux) 1
                [write_0x50; read_0x51; write_0x52] peer_fails_0x51 boot) as H.
  cbv zeta.
  remember (i2c_rpbus_xfer (K := linux) 1 [write_0x50; read_0x51; write_0x52]
              peer_fails_0x51 boot) as t eqn:Et in *.
  specialize (H ltac:(discriminate)). cbv zeta in H.
  destruct t as [[w' msgs'] r].
  destruct H as (pre & m & post & wk & pre' & Hsplit & Hpre & Hlast & _ & Hacc).
  cbn [fst].
  destruct pre as [|a [|b [|c pre]]].
  - injection Hsplit as <- <-.
    destruct Hlast as [Hpost | (e & He & Hrun)]; [discriminate|].
    vm_compute in Hrun. injection Hrun as <-. lia.
  - injection Hsplit as <- <- <-. rewrite !Hacc. split; reflexivity.
  - injection Hsplit as <- <- <- <-. vm_compute in Hpre. discriminate.
  - injection Hsplit as _ _ _ Hnil. now destruct pre.
Defined.

Lemma frames_carry_only_the_write_buffer_witness :
  wire (fst (i2c_rpmsg_write (K := linux) write_0x50 1 true write_ok
               (set_ram boot (fun a => if a =? 100 then 0xAA else 0x55))))
  = wire (fst (i2c_rpmsg_write (K := linux) write_0x50 1 true write_ok boot)).
Proof.
  apply (frames_carry_only_the_write_buffer (K := linux) write_0x50 1 true
           write_ok boot (fun a => if a =? 100 then 0xAA else 0x55)).
  intros k Hk. simpl in Hk. replace k with 0 by lia. reflexivity.
Defined.

Lemma advertised_limit_is_the_enforced_limit_witness :
  message_call (K := linux) oversized_0x50 1 true write_ok boot
  = (boot, Ret (-22)).
Proof.
  apply (advertised_limit_is_the_enforced_limit (K := linux) oversized_0x50 1
           true write_ok boot).
  - reflexivity.
  - simpl. unfold I2C_RPMSG_MAX_BUF_SIZE. lia.
Defined.
